(** * A resilient RabbitMQ client: connection manager, channel arbiter,
      publish entry point and consumer decode loop.

    Shallow embedding of [pkg/net/rabbitmq/rabbitmq.go] (the worker-pool
    variant and the older errgroup variant) and of the [broker] wrapper.
    Go integers and durations are [Z]; a nilable pointer is an [option];
    every goroutine is a program in a small state monad over the client
    structure, which also records the observable effects in order. *)

From Stdlib Require Import ZArith List String Bool Lia.
Import ListNotations.
Local Open Scope string_scope.
Local Open Scope list_scope.
Local Open Scope Z_scope.

Set Implicit Arguments.

(* ===================================================================== *)
(** ** The AMQP library as the client sees it *)
(* ===================================================================== *)

Module amqp.

(** Reply codes of amqp091-go, with the values the source quotes. *)
Definition ContentTooLarge    : Z := 311.
Definition NoConsumers        : Z := 313.
Definition ConnectionForced   : Z := 320.
Definition InvalidPath        : Z := 402.
Definition AccessRefused      : Z := 403.
Definition NotFound           : Z := 404.
Definition ResourceLocked     : Z := 405.
Definition PreconditionFailed : Z := 406.
Definition FrameError         : Z := 501.
Definition SyntaxError        : Z := 502.
Definition CommandInvalid     : Z := 503.
Definition ChannelError       : Z := 504.
Definition UnexpectedFrame    : Z := 505.
Definition ResourceError      : Z := 506.
Definition NotAllowed         : Z := 530.
Definition NotImplemented     : Z := 540.
Definition InternalError      : Z := 541.

(** [amqp.Error]: the code is all the client looks at. *)
Record Error : Type := mkError { Code : Z; Reason : string }.

(** [*amqp.Connection] and [*amqp.Channel] are opaque handles. *)
Record Connection : Type := mkConnection { conn_id : nat }.
Record Channel : Type := mkChannel { chan_conn : nat; chan_id : nat }.

End amqp.

(** A Go [error] value: the client distinguishes an [*amqp.Error] from
    anything else only through the type assertion in [dial]. *)
Inductive error : Type :=
| AmqpError (e : amqp.Error)
| OtherError (msg : string).

(* ===================================================================== *)
(** ** Error classification *)
(* ===================================================================== *)

Definition connectionError : Z := 1.
Definition channelError    : Z := 2.

(** The codes of the first [case] of [errorType]. *)
Definition channel_level_codes : list Z :=
  [ amqp.ContentTooLarge; amqp.NoConsumers; amqp.AccessRefused;
    amqp.NotFound; amqp.ResourceLocked; amqp.PreconditionFailed ].

(** The codes of the second [case], which falls through to [default]. *)
Definition connection_level_codes : list Z :=
  [ amqp.ConnectionForced; amqp.InvalidPath; amqp.FrameError;
    amqp.SyntaxError; amqp.CommandInvalid; amqp.ChannelError;
    amqp.UnexpectedFrame; amqp.ResourceError; amqp.NotAllowed;
    amqp.NotImplemented; amqp.InternalError ].

Definition code_in (code : Z) (l : list Z) : bool :=
  existsb (Z.eqb code) l.

(** [func errorType(code int) int] *)
Definition errorType (code : Z) : Z :=
  if code_in code channel_level_codes then channelError
  else if code_in code connection_level_codes then connectionError (* fallthrough *)
  else connectionError.                                            (* default *)

(** [func isConnectionError(err *amqp.Error) bool] *)
Definition isConnectionError (err : amqp.Error) : bool :=
  errorType (amqp.Code err) =? connectionError.

(* ===================================================================== *)
(** ** The circuit breaker *)
(* ===================================================================== *)

(** [gobreaker.Settings], the fields the client fills in ([ReadyToTrip]
    and the callbacks are left at their defaults). *)
Record Settings : Type := mkSettings {
  SettingsName        : string;
  SettingsMaxRequests : Z;
  SettingsInterval    : Z;
  SettingsOpenTimeout : Z
}.

(** The client talks to its breaker through [Allow] and through the
    callback [Allow] hands back: two steps, request then report.  [Allow]
    either admits the call and returns a ticket (the closure's captured
    state) or refuses it with an error.  [now] is the wall clock. *)
Class TwoStepCircuitBreaker (B : Type) : Type := {
  ticket : Type;
  NewTwoStepCircuitBreaker : Settings -> Z -> B;
  Allow  : Z -> B -> B * (ticket + error);
  report : ticket -> Z -> bool -> B -> B
}.

(** Model of the third-party library github.com/sony/gobreaker, the
    breaker the client is built with.  It is not part of the repository;
    the general results below hold for every [TwoStepCircuitBreaker], and
    this instance is what concrete runs use. *)
Module gobreaker.

Inductive State : Type := StateClosed | StateHalfOpen | StateOpen.

(** [Counts]: all fields are [uint32]. *)
Record Counts : Type := mkCounts {
  Requests             : Z;
  TotalSuccesses       : Z;
  TotalFailures        : Z;
  ConsecutiveSuccesses : Z;
  ConsecutiveFailures  : Z
}.

Definition u32 (z : Z) : Z := z mod 2 ^ 32.

Definition counts_clear : Counts := mkCounts 0 0 0 0 0.

Definition counts_onRequest (c : Counts) : Counts :=
  mkCounts (u32 (Requests c + 1)) (TotalSuccesses c) (TotalFailures c)
           (ConsecutiveSuccesses c) (ConsecutiveFailures c).

Definition counts_onSuccess (c : Counts) : Counts :=
  mkCounts (Requests c) (u32 (TotalSuccesses c + 1)) (TotalFailures c)
           (u32 (ConsecutiveSuccesses c + 1)) 0.

Definition counts_onFailure (c : Counts) : Counts :=
  mkCounts (Requests c) (TotalSuccesses c) (u32 (TotalFailures c + 1))
           0 (u32 (ConsecutiveFailures c + 1)).

Definition defaultInterval : Z := 0.
Definition defaultTimeout  : Z := 60 * 1000000000.

Definition defaultReadyToTrip (c : Counts) : bool :=
  5 <? ConsecutiveFailures c.

(** [expiry = None] is the zero [time.Time]. *)
Record CircuitBreaker : Type := mkCircuitBreaker {
  maxRequests : Z;
  interval    : Z;
  timeout     : Z;
  state       : State;
  generation  : Z;
  counts      : Counts;
  expiry      : option Z
}.

Definition State_eqb (a b : State) : bool :=
  match a, b with
  | StateClosed, StateClosed | StateHalfOpen, StateHalfOpen
  | StateOpen, StateOpen => true
  | _, _ => false
  end.

Definition toNewGeneration (now : Z) (cb : CircuitBreaker) : CircuitBreaker :=
  let exp :=
    match state cb with
    | StateClosed => if interval cb =? 0 then None else Some (now + interval cb)
    | StateOpen => Some (now + timeout cb)
    | StateHalfOpen => None
    end in
  mkCircuitBreaker (maxRequests cb) (interval cb) (timeout cb) (state cb)
                   (generation cb + 1) counts_clear exp.

Definition setState (st : State) (now : Z) (cb : CircuitBreaker) : CircuitBreaker :=
  if State_eqb (state cb) st then cb
  else toNewGeneration now
         (mkCircuitBreaker (maxRequests cb) (interval cb) (timeout cb) st
                           (generation cb) (counts cb) (expiry cb)).

Definition expiry_Before (e : option Z) (now : Z) : bool :=
  match e with
  | None => true
  | Some t => t <? now
  end.

Definition expiry_IsZero (e : option Z) : bool :=
  match e with None => true | Some _ => false end.

Definition currentState (now : Z) (cb : CircuitBreaker) : CircuitBreaker :=
  match state cb with
  | StateClosed =>
      if negb (expiry_IsZero (expiry cb)) && expiry_Before (expiry cb) now
      then toNewGeneration now cb else cb
  | StateOpen =>
      if expiry_Before (expiry cb) now then setState StateHalfOpen now cb else cb
  | StateHalfOpen => cb
  end.

Definition with_counts (c : Counts) (cb : CircuitBreaker) : CircuitBreaker :=
  mkCircuitBreaker (maxRequests cb) (interval cb) (timeout cb) (state cb)
                   (generation cb) c (expiry cb).

Definition ErrOpenState : error := OtherError "circuit breaker is open".
Definition ErrTooManyRequests : error := OtherError "too many requests".

(** [beforeRequest]: the generation admitted, or the refusal. *)
Definition beforeRequest (now : Z) (cb : CircuitBreaker)
  : CircuitBreaker * (Z + error) :=
  let cb := currentState now cb in
  match state cb with
  | StateOpen => (cb, inr ErrOpenState)
  | StateHalfOpen =>
      if maxRequests cb <=? Requests (counts cb)
      then (cb, inr ErrTooManyRequests)
      else (with_counts (counts_onRequest (counts cb)) cb, inl (generation cb))
  | StateClosed =>
      (with_counts (counts_onRequest (counts cb)) cb, inl (generation cb))
  end.

Definition onSuccess (now : Z) (cb : CircuitBreaker) : CircuitBreaker :=
  match state cb with
  | StateClosed => with_counts (counts_onSuccess (counts cb)) cb
  | StateHalfOpen =>
      let cb := with_counts (counts_onSuccess (counts cb)) cb in
      if maxRequests cb <=? ConsecutiveSuccesses (counts cb)
      then setState StateClosed now cb else cb
  | StateOpen => cb
  end.

Definition onFailure (now : Z) (cb : CircuitBreaker) : CircuitBreaker :=
  match state cb with
  | StateClosed =>
      let cb := with_counts (counts_onFailure (counts cb)) cb in
      if defaultReadyToTrip (counts cb) then setState StateOpen now cb else cb
  | StateHalfOpen => setState StateOpen now cb
  | StateOpen => cb
  end.

(** [afterRequest]: a report for a generation that has passed is dropped. *)
Definition afterRequest (before : Z) (now : Z) (success : bool)
           (cb : CircuitBreaker) : CircuitBreaker :=
  let cb := currentState now cb in
  if negb (generation cb =? before) then cb
  else if success then onSuccess now cb else onFailure now cb.

Definition NewCircuitBreaker (st : Settings) (now : Z) : CircuitBreaker :=
  toNewGeneration now
    (mkCircuitBreaker
       (if SettingsMaxRequests st =? 0 then 1 else SettingsMaxRequests st)
       (if SettingsInterval st <=? 0 then defaultInterval else SettingsInterval st)
       (if SettingsOpenTimeout st <=? 0 then defaultTimeout else SettingsOpenTimeout st)
       StateClosed 0 counts_clear None).

#[global] Instance two_step : TwoStepCircuitBreaker CircuitBreaker := {
  ticket := Z;
  NewTwoStepCircuitBreaker := NewCircuitBreaker;
  Allow := beforeRequest;
  report := afterRequest
}.

End gobreaker.

(* ===================================================================== *)
(** ** The client structure and its effects *)
(* ===================================================================== *)

(** [rabbitmq.Config]. Durations are nanoseconds. *)
Record Config : Type := mkConfig {
  QueueSize         : Z;
  MaxWorkers        : Z;
  ReconnectInterval : Z;
  MaxRequests       : Z;
  ClearInterval     : Z;
  ClosedTimeout     : Z
}.

(** [rabbitmq.Message]: route, content type and payload. *)
Record Message : Type := mkMessage {
  Route       : string;
  ContentType : string;
  MessageBody : list Byte.byte
}.

(** What a goroutine of the client does to the outside, in the order it
    does it. *)
Inductive event : Type :=
| EvLog (msg : string)                           (* mq.logger.Log *)
| EvSleep (d : Z)                                (* time.Sleep *)
| EvAllow (admitted : bool)                      (* mq.breaker.Allow() *)
| EvReport (success : bool)                      (* the callback of Allow *)
| EvDial (ok : bool)                             (* amqp.Dial(mq.url) *)
| EvLock                                         (* mq.mutex.Lock() *)
| EvUnlock                                       (* mq.mutex.Unlock() *)
| EvReadConn                                     (* a read of mq.connection *)
| EvWriteConn                                    (* mq.connection = conn *)
| EvChannelOpen (ok : bool)                      (* connection.Channel() *)
| EvAsk (req : nat)                              (* mq.readChannel <- ask *)
| EvReply (req : nat) (c : option amqp.Channel)  (* req <- c *)
| EvGo (f : string)                              (* go f() *)
| EvShutdown                                     (* mq.shutdown() *)
| EvIsClosed                                     (* connection.IsClosed() *)
| EvConnClose.                                   (* connection.Close() *)

Record RabbitMQ (B : Type) : Type := mkRabbitMQ {
  ConsumerName : string;
  cancelled : bool;  (* [ctx]: [shutdown] has been called *)
  config : Config;
  connection : option amqp.Connection;  (* [*amqp.Connection], [None] is nil *)
  mutex : bool;  (* [sync.RWMutex]: write-locked? *)
  url : string;
  publishQueue : list Message;  (* buffered channel, oldest first *)
  delivered : list (nat * option amqp.Channel);  (* values received on the one-shot reply slots *)
  breaker : B;
  asked : nat;  (* reply slots made so far *)
  limiter : Z;  (* worker permits taken *)
  now : Z;  (* the clock *)
  dialed : nat;  (* calls of [amqp.Dial] so far *)
  opened : nat;  (* calls of [Connection.Channel] so far *)
  effects : list event  (* what the client did, in order *)
}.

Arguments mkRabbitMQ {B}.

Section Update.
Context {B : Type}.

Definition set_cancelled (v : bool) (w : RabbitMQ B) : RabbitMQ B :=
  mkRabbitMQ (ConsumerName w) v (config w) (connection w) (mutex w) (url w) (publishQueue w) (delivered w) (breaker w) (asked w) (limiter w) (now w) (dialed w) (opened w) (effects w).

Definition set_connection (v : option amqp.Connection) (w : RabbitMQ B) : RabbitMQ B :=
  mkRabbitMQ (ConsumerName w) (cancelled w) (config w) v (mutex w) (url w) (publishQueue w) (delivered w) (breaker w) (asked w) (limiter w) (now w) (dialed w) (opened w) (effects w).

Definition set_mutex (v : bool) (w : RabbitMQ B) : RabbitMQ B :=
  mkRabbitMQ (ConsumerName w) (cancelled w) (config w) (connection w) v (url w) (publishQueue w) (delivered w) (breaker w) (asked w) (limiter w) (now w) (dialed w) (opened w) (effects w).

Definition set_publishQueue (v : list Message) (w : RabbitMQ B) : RabbitMQ B :=
  mkRabbitMQ (ConsumerName w) (cancelled w) (config w) (connection w) (mutex w) (url w) v (delivered w) (breaker w) (asked w) (limiter w) (now w) (dialed w) (opened w) (effects w).

Definition set_delivered (v : list (nat * option amqp.Channel)) (w : RabbitMQ B) : RabbitMQ B :=
  mkRabbitMQ (ConsumerName w) (cancelled w) (config w) (connection w) (mutex w) (url w) (publishQueue w) v (breaker w) (asked w) (limiter w) (now w) (dialed w) (opened w) (effects w).

Definition set_breaker (v : B) (w : RabbitMQ B) : RabbitMQ B :=
  mkRabbitMQ (ConsumerName w) (cancelled w) (config w) (connection w) (mutex w) (url w) (publishQueue w) (delivered w) v (asked w) (limiter w) (now w) (dialed w) (opened w) (effects w).

Definition set_asked (v : nat) (w : RabbitMQ B) : RabbitMQ B :=
  mkRabbitMQ (ConsumerName w) (cancelled w) (config w) (connection w) (mutex w) (url w) (publishQueue w) (delivered w) (breaker w) v (limiter w) (now w) (dialed w) (opened w) (effects w).

Definition set_limiter (v : Z) (w : RabbitMQ B) : RabbitMQ B :=
  mkRabbitMQ (ConsumerName w) (cancelled w) (config w) (connection w) (mutex w) (url w) (publishQueue w) (delivered w) (breaker w) (asked w) v (now w) (dialed w) (opened w) (effects w).

Definition set_now (v : Z) (w : RabbitMQ B) : RabbitMQ B :=
  mkRabbitMQ (ConsumerName w) (cancelled w) (config w) (connection w) (mutex w) (url w) (publishQueue w) (delivered w) (breaker w) (asked w) (limiter w) v (dialed w) (opened w) (effects w).

Definition set_dialed (v : nat) (w : RabbitMQ B) : RabbitMQ B :=
  mkRabbitMQ (ConsumerName w) (cancelled w) (config w) (connection w) (mutex w) (url w) (publishQueue w) (delivered w) (breaker w) (asked w) (limiter w) (now w) v (opened w) (effects w).

Definition set_opened (v : nat) (w : RabbitMQ B) : RabbitMQ B :=
  mkRabbitMQ (ConsumerName w) (cancelled w) (config w) (connection w) (mutex w) (url w) (publishQueue w) (delivered w) (breaker w) (asked w) (limiter w) (now w) (dialed w) v (effects w).

Definition set_effects (v : list event) (w : RabbitMQ B) : RabbitMQ B :=
  mkRabbitMQ (ConsumerName w) (cancelled w) (config w) (connection w) (mutex w) (url w) (publishQueue w) (delivered w) (breaker w) (asked w) (limiter w) (now w) (dialed w) (opened w) v.

End Update.

(* ===================================================================== *)
(** ** Goroutines as programs *)
(* ===================================================================== *)

(** How a run of a goroutine stands: it returned, it panicked, it is
    parked for good on a channel or lock nobody will serve, or it is still
    executing when the observer's patience (the fuel of a loop) ran out. *)
Inductive outcome (W A : Type) : Type :=
| Returned (a : A) (w : W)
| Panicked (why : string) (w : W)
| Blocked (w : W)
| Running (w : W).

Arguments Returned {W A}.
Arguments Panicked {W A}.
Arguments Blocked {W A}.
Arguments Running {W A}.

Definition M (W A : Type) : Type := W -> outcome W A.

Definition ret {W A : Type} (a : A) : M W A := fun w => Returned a w.

Definition bind {W A C : Type} (m : M W A) (k : A -> M W C) : M W C :=
  fun w =>
    match m w with
    | Returned a w' => k a w'
    | Panicked why w' => Panicked why w'
    | Blocked w' => Blocked w'
    | Running w' => Running w'
    end.

Declare Scope go_scope.
Delimit Scope go_scope with go.
Notation "x <- c ;; k" := (bind c (fun x => k))
  (at level 61, c at next level, right associativity) : go_scope.
Notation "c ;; k" := (bind c (fun _ => k))
  (at level 61, right associativity) : go_scope.
Local Open Scope go_scope.

(** The world in which an outcome stands. *)
Definition final {W A : Type} (o : outcome W A) : W :=
  match o with
  | Returned _ w | Panicked _ w | Blocked w | Running w => w
  end.

Definition returned {W A : Type} (o : outcome W A) : bool :=
  match o with Returned _ _ => true | _ => false end.

Section Primitives.
Context {B : Type} `{TwoStepCircuitBreaker B}.

Local Abbreviation World := (RabbitMQ B).

Definition emit (e : event) : M World unit :=
  fun w => Returned tt (set_effects (effects w ++ [e]) w).

(** [mq.logger.Log(ctx, msg, ...)] *)
Definition Log (msg : string) : M World unit := emit (EvLog msg).

(** [time.Sleep(d)] *)
Definition Sleep (d : Z) : M World unit :=
  fun w => emit (EvSleep d) (set_now (now w + d) w).

(** [mq.breaker.Allow()]: the callback (as its ticket) or the error. *)
Definition breaker_Allow : M World (ticket + error) :=
  fun w =>
    let (b, r) := Allow (now w) (breaker w) in
    bind (emit (EvAllow (match r with inl _ => true | inr _ => false end)))
         (fun _ => ret r) (set_breaker b w).

(** Calling the callback [Allow] returned. *)
Definition call (f : ticket) (success : bool) : M World unit :=
  fun w => emit (EvReport success)
             (set_breaker (report f (now w) success (breaker w)) w).

(** Calling a [func(bool)] variable that may hold nil. *)
Definition call_func (f : option ticket) (success : bool) : M World unit :=
  match f with
  | Some t => call t success
  | None => fun w => Panicked "invalid memory address or nil pointer dereference" w
  end.

(** [mq.mutex.Lock()] parks the caller while the lock is held. *)
Definition mutex_Lock : M World unit :=
  fun w => if mutex w then Blocked w else emit EvLock (set_mutex true w).

Definition mutex_Unlock : M World unit :=
  fun w => if mutex w then emit EvUnlock (set_mutex false w)
           else Panicked "sync: Unlock of unlocked RWMutex" w.

(** A read of the field [mq.connection]. *)
Definition read_connection : M World (option amqp.Connection) :=
  fun w => bind (emit EvReadConn) (fun _ => ret (connection w)) w.

(** [mq.connection = conn] *)
Definition write_connection (conn : amqp.Connection) : M World unit :=
  fun w => emit EvWriteConn (set_connection (Some conn) w).

(** [req <- c] on a one-shot reply slot: the requester receives from its
    slot once, so a second send finds nobody. *)
Definition slot_served (req : nat) (d : list (nat * option amqp.Channel)) : bool :=
  existsb (fun p => Nat.eqb (fst p) req) d.

Definition send (req : nat) (c : option amqp.Channel) : M World unit :=
  fun w =>
    if slot_served req (delivered w) then Blocked w
    else emit (EvReply req c) (set_delivered (delivered w ++ [(req, c)]) w).

(** [limiter <- struct{}{}] and [<-limiter] on a channel of capacity
    [MaxWorkers]. *)
Definition limiter_acquire : M World unit :=
  fun w => if limiter w <? MaxWorkers (config w)
           then Returned tt (set_limiter (limiter w + 1) w)
           else Blocked w.

Definition limiter_release : M World unit :=
  fun w => Returned tt (set_limiter (limiter w - 1) w).

(** [go f()], in the schedule where the new goroutine runs until it
    returns or parks before the spawner goes on.  A panic takes the
    process down. *)
Definition go (name : string) (f : M World unit) : M World unit :=
  fun w =>
    match bind (emit (EvGo name)) (fun _ => f) w with
    | Returned _ w' | Blocked w' | Running w' => Returned tt w'
    | Panicked why w' => Panicked why w'
    end.

(** [go f()] for a goroutine whose own steps are not followed. *)
Definition go_detached (name : string) : M World unit := emit (EvGo name).

(** [err.( *amqp.Error)]: the assertion panics on any other error. *)
Definition assert_amqp_Error (err : error) : M World amqp.Error :=
  match err with
  | AmqpError e => ret e
  | OtherError _ =>
      fun w => Panicked "interface conversion: error is not *amqp.Error" w
  end.

End Primitives.

(* ===================================================================== *)
(** ** The connection manager and the channel arbiter *)
(* ===================================================================== *)

(** What [select] picked in [handleConnectionErrors]: a value received
    from [mq.notifyConnClose] (nil when the channel was closed) or
    [ctx.Done()]. *)
Inductive connSelect : Type :=
| RecvNotify (e : option amqp.Error)
| ConnCtxDone.

(** What [select] picked in [handleChannelReads]: a reply slot received
    from [mq.readChannel] or [ctx.Done()]. *)
Inductive readSelect : Type :=
| RecvReq (req : nat)
| ReadCtxDone.

Section Client.
Context {B : Type} `{TwoStepCircuitBreaker B}.

(** The broker side: the result of the [k]-th call of [amqp.Dial], and of
    the [k]-th call of [Channel] on a connection. *)
Variable amqp_Dial : nat -> amqp.Connection + error.
Variable Connection_Channel : amqp.Connection -> nat -> amqp.Channel + error.
Variable Connection_IsClosed : amqp.Connection -> bool.
Variable Connection_Close : amqp.Connection -> option error.

Local Abbreviation World := (RabbitMQ B).

(** [amqp.Dial(mq.url)] *)
Definition Dial : M World (amqp.Connection + error) :=
  fun w =>
    let r := amqp_Dial (dialed w) in
    bind (emit (EvDial (match r with inl _ => true | inr _ => false end)))
         (fun _ => ret r) (set_dialed (S (dialed w)) w).

(** [c.Channel()] on the value read from [mq.connection]. *)
Definition Channel (c : option amqp.Connection) : M World (amqp.Channel + error) :=
  match c with
  | None => fun w => Panicked "invalid memory address or nil pointer dereference" w
  | Some conn =>
      fun w =>
        let r := Connection_Channel conn (opened w) in
        bind (emit (EvChannelOpen (match r with inl _ => true | inr _ => false end)))
             (fun _ => ret r) (set_opened (S (opened w)) w)
  end.

(** [func (mq *RabbitMQ) dial() error], the same text in both variants.
    The deferred [Unlock] runs at the return. *)
Definition dial : M World (option error) :=
  r <- breaker_Allow ;;
  match r with
  | inr err => ret (Some err)
  | inl callSucceded =>
      r <- Dial ;;
      match r with
      | inr err =>
          e <- assert_amqp_Error err ;;
          (if isConnectionError e then call callSucceded false else ret tt) ;;
          (* Error did not render broker unavailable. *)
          call callSucceded true ;;
          ret (Some err)
      | inl conn =>
          call callSucceded true ;;
          mutex_Lock ;;
          write_connection conn ;;
          mutex_Unlock ;;
          ret None
      end
  end.

(** [func (mq *RabbitMQ) ReDial(ctx context.Context)]: [ctx] reaches the
    logger only.  [fuel] bounds the iterations followed. *)
Fixpoint ReDial (fuel : nat) : M World unit :=
  match fuel with
  | O => fun w => Running w
  | S fuel' =>
      Log "Reconnecting to RabbitMQ" ;;
      err <- dial ;;
      match err with
      | None => ret tt
      | Some _ =>
          Log "Failed to connect to RabbitMQ" ;;
          (fun w => Sleep (ReconnectInterval (config w)) w) ;;
          ReDial fuel'
      end
  end.

(** [func (mq *RabbitMQ) handleConnectionErrors(ctx context.Context)],
    over the picks of its [select]; with no pick left it waits. *)
Fixpoint handleConnectionErrors (fuel : nat) (picks : list connSelect) : M World unit :=
  match picks with
  | [] => fun w => Blocked w
  | RecvNotify e :: rest =>
      match e with
      | None => handleConnectionErrors fuel rest          (* continue *)
      | Some _ => ReDial fuel ;; handleConnectionErrors fuel rest
      end
  | ConnCtxDone :: _ => ret tt
  end.

(** The goroutine [handleChannelReads] starts for a request [req]; the
    deferred [<-limiter] runs at each return. *)
Definition handleChannelRead (req : nat) : M World unit :=
  r <- breaker_Allow ;;
  match r with
  | inr _ =>
      send req None ;;
      limiter_release
  | inl succedeed =>
      conn <- read_connection ;;
      r <- Channel conn ;;
      match r with
      | inr _ =>
          send req None ;;
          Log "Failed to open a new channel" ;;
          call succedeed false ;;
          limiter_release
      | inl channel =>
          call succedeed true ;;
          send req (Some channel) ;;
          limiter_release
      end
  end.

(** One turn of the arbiter for a request read from [mq.readChannel]. *)
Definition serve (req : nat) : M World unit :=
  limiter_acquire ;;
  go "rabbitmq.handleChannelRead" (handleChannelRead req).

(** [func (mq *RabbitMQ) handleChannelReads(ctx context.Context)] *)
Fixpoint handleChannelReads (picks : list readSelect) : M World unit :=
  match picks with
  | [] => fun w => Blocked w
  | RecvReq req :: rest => serve req ;; handleChannelReads rest
  | ReadCtxDone :: _ => ret tt
  end.

(** [ask := make(chan *amqp.Channel)]: a fresh one-shot slot. *)
Definition make_ask : M World nat :=
  fun w => Returned (asked w) (set_asked (S (asked w)) w).

(** [channel := <-ask]: the value delivered on the slot; with none to
    come the caller stays parked. *)
Definition recv (req : nat) : M World (option amqp.Channel) :=
  fun w =>
    match find (fun p => Nat.eqb (fst p) req) (delivered w) with
    | Some (_, c) => Returned c w
    | None => Blocked w
    end.

(** [func (mq *RabbitMQ) channel() *amqp.Channel], the same text in both
    variants, against an arbiter that takes the request with [arbiter]. *)
Fixpoint channel (arbiter : nat -> M World unit) (fuel : nat)
  : M World (option amqp.Channel) :=
  match fuel with
  | O => fun w => Running w
  | S fuel' =>
      ask <- make_ask ;;
      emit (EvAsk ask) ;; arbiter ask ;;        (* mq.readChannel <- ask *)
      ch <- recv ask ;;
      match ch with
      | Some c => ret (Some c)
      | None =>
          (fun w => Sleep (ReconnectInterval (config w)) w) ;;
          channel arbiter fuel'
      end
  end.

(** [func (mq *RabbitMQ) run()] *)
Definition run (fuel : nat) : M World unit :=
  ReDial fuel ;;
  go_detached "mq.runPublishQueue" ;;
  go_detached "mq.handleConnectionErrors" ;;
  go_detached "mq.handleChannelReads".

(** [func (mq *RabbitMQ) Close() error] *)
Definition Close : M World (option error) :=
  (fun w => emit EvShutdown (set_cancelled true w)) ;;
  c <- read_connection ;;
  match c with
  | None => ret None
  | Some _ =>
      c <- read_connection ;;
      emit EvIsClosed ;;
      match c with
      | None => fun w => Panicked "invalid memory address or nil pointer dereference" w
      | Some conn =>
          if Connection_IsClosed conn then ret None
          else
            Log "Closing active connections" ;;
            c <- read_connection ;;
            emit EvConnClose ;;
            match c with
            | None => fun w => Panicked "invalid memory address or nil pointer dereference" w
            | Some conn =>
                match Connection_Close conn with
                | Some err =>
                    Log "Failed to close active connections" ;;
                    ret (Some err)
                | None => ret None
                end
            end
      end
  end.

End Client.

(** [func NewRabbitMQ(consumer, user, pass, host, port string, logger,
    config Config) *RabbitMQ] of the worker-pool variant, started at
    clock [t0]. *)
Definition new_RabbitMQ {B : Type} `{TwoStepCircuitBreaker B}
  (consumer user pass host port : string) (config : Config) (t0 : Z)
  : RabbitMQ B :=
  mkRabbitMQ consumer false config None false
    ("amqp://" ++ user ++ ":" ++ pass ++ "@" ++ host ++ ":" ++ port ++ "/")%string
    [] []
    (NewTwoStepCircuitBreaker
       (mkSettings consumer (MaxRequests config) (ClearInterval config)
                   (ClosedTimeout config)) t0)
    O 0 t0 O O [].

Definition NewRabbitMQ {B : Type} `{TwoStepCircuitBreaker B}
  (amqp_Dial : nat -> amqp.Connection + error) (fuel : nat)
  (consumer user pass host port : string) (config : Config) (t0 : Z)
  : outcome (RabbitMQ B) unit :=
  run amqp_Dial fuel (new_RabbitMQ consumer user pass host port config t0).

(* ===================================================================== *)
(** ** The older variant, built on an error group *)
(* ===================================================================== *)

(** [dial], [channel], [errorType] and [isConnectionError] have the same
    text there; the two background loops differ. *)
Module ErrGroup.

Section Client.
Context {B : Type} `{TwoStepCircuitBreaker B}.
Variable amqp_Dial : nat -> amqp.Connection + error.
Variable Connection_Channel : amqp.Connection -> nat -> amqp.Channel + error.

Local Abbreviation World := (RabbitMQ B).

(** The body of [case req := <-mq.readChannel] in [handleChannelReads].
    After a refusal by the breaker it sends nil and goes on: [succedeed]
    is then the nil callback. *)
Definition serve (req : nat) : M World unit :=
  r <- breaker_Allow ;;
  succedeed <- match r with
               | inr _ => send req None ;; ret None
               | inl f => ret (Some f)
               end ;;
  conn <- read_connection ;;
  r <- Channel Connection_Channel conn ;;
  match r with
  | inr _ =>
      send req None ;;
      Log "Failed opening a new channel" ;;
      call_func succedeed false                     (* continue *)
  | inl channel =>
      call_func succedeed true ;;
      send req (Some channel)
  end.

(** [func (mq *RabbitMQ) handleChannelReads(ctx context.Context) error] *)
Fixpoint handleChannelReads (picks : list readSelect) : M World unit :=
  match picks with
  | [] => fun w => Blocked w
  | RecvReq req :: rest => serve req ;; handleChannelReads rest
  | ReadCtxDone :: _ => Log "Stopped listening to channel reads"
  end.

(** The inner [for] of [handleConnectionErrors]. *)
Fixpoint redial (fuel : nat) : M World unit :=
  match fuel with
  | O => fun w => Running w
  | S fuel' =>
      err <- dial amqp_Dial ;;
      match err with
      | None => ret tt                              (* break *)
      | Some _ =>
          Log "Reconnecting to RabbitMQ" ;;
          (fun w => Sleep (ReconnectInterval (config w)) w) ;;
          redial fuel'
      end
  end.

(** [func (mq *RabbitMQ) handleConnectionErrors(ctx context.Context) error] *)
Fixpoint handleConnectionErrors (fuel : nat) (picks : list connSelect) : M World unit :=
  match picks with
  | [] => fun w => Blocked w
  | RecvNotify e :: rest =>
      match e with
      | None => handleConnectionErrors fuel rest          (* continue *)
      | Some _ => redial fuel ;; handleConnectionErrors fuel rest
      end
  | ConnCtxDone :: _ => ret tt
  end.

End Client.

End ErrGroup.

(* ===================================================================== *)
(** ** The broker wrapper: publishing and consuming events *)
(* ===================================================================== *)

Inductive EventType : Type := Created | Updated | Deleted.

(** [event.Event] *)
Record Event : Type := mkEvent {
  Entity    : string;
  Type_     : EventType;
  Body      : list Byte.byte;
  Timestamp : Z
}.

(** [amqp.Delivery]: the decode loop reads the body only. *)
Record Delivery : Type := mkDelivery { DeliveryBody : list Byte.byte }.

Definition ErrQueueFull : error := OtherError "publish queue is full".

(** Modelled from the spec: [RabbitMQ.Enqueue], which is not among the
    sources.  The bounded queue has the capacity fixed at construction;
    enqueueing never waits: below capacity the message joins the queue,
    at capacity the caller gets a capacity error and the queue is left
    alone. *)
Definition Enqueue {B : Type} (msg : Message) : M (RabbitMQ B) (option error) :=
  fun w =>
    if Z.of_nat (List.length (publishQueue w)) <? QueueSize (config w)
    then Returned None (set_publishQueue (publishQueue w ++ [msg]) w)
    else Returned (Some ErrQueueFull) w.

(** What the decode goroutine does with one delivery. *)
Inductive consumed : Type :=
| Produced (e : Event)                 (* events <- event *)
| Dropped (err : error).               (* logged, then continue *)

Section Broker.
Context {B : Type}.

(** Helpers of the package that are not among the sources: each returns
    one value. *)
Variable MessageFromEvent : Event -> Message.
Variable RouteFromEvent : EventType -> string.
(** [json.Unmarshal(message.Body, &event)] into a fresh event. *)
Variable json_Unmarshal : list Byte.byte -> Event + error.
(** [b.messageQueue.Consume(ctx, queue, route)]: the deliveries the
    stream carries until it closes, or the error. *)
Variable mq_Consume : string -> string -> list Delivery + error.

(** [func (b *Broker) ResilientPublish(e event.Event) error] *)
Definition ResilientPublish (e : Event) : M (RabbitMQ B) (option error) :=
  let msg := MessageFromEvent e in
  err <- Enqueue msg ;;
  match err with
  | Some err => ret (Some err)
  | None => ret None
  end.

(** The goroutine of [Consume]: [for message := range messages]. *)
Fixpoint decode_loop (messages : list Delivery) : list consumed :=
  match messages with
  | [] => []
  | message :: rest =>
      match json_Unmarshal (DeliveryBody message) with
      | inr err => Dropped err :: decode_loop rest        (* continue *)
      | inl event => Produced event :: decode_loop rest
      end
  end.

(** [func (b *Broker) Consume(ctx, queue, eventType) (<-chan event.Event, error)]:
    the error, or what the goroutine does as the stream is read. *)
Definition Consume (queue : string) (eventType : EventType) : list consumed + error :=
  let route := RouteFromEvent eventType in
  match mq_Consume queue route with
  | inr err => inr err
  | inl messages => inl (decode_loop messages)
  end.

(** The events that reach the returned channel, in order. *)
Fixpoint events_of (l : list consumed) : list Event :=
  match l with
  | [] => []
  | Produced e :: rest => e :: events_of rest
  | Dropped _ :: rest => events_of rest
  end.

(** The log lines of the goroutine, in order. *)
Fixpoint failures_of (l : list consumed) : list error :=
  match l with
  | [] => []
  | Produced _ :: rest => failures_of rest
  | Dropped err :: rest => err :: failures_of rest
  end.

End Broker.

(* ===================================================================== *)
(** ** Reading a run *)
(* ===================================================================== *)

(** The same outcome with a change applied to its world. *)
Definition outcome_map {W A : Type} (f : W -> W) (o : outcome W A) : outcome W A :=
  match o with
  | Returned a w => Returned a (f w)
  | Panicked why w => Panicked why (f w)
  | Blocked w => Blocked (f w)
  | Running w => Running (f w)
  end.

(** The steps a run added to those on record in [w]. *)
Definition performed {B A : Type} (w : RabbitMQ B) (o : outcome (RabbitMQ B) A)
  : list event :=
  skipn (List.length (effects w)) (effects (final o)).

(** What the breaker was told, in order. *)
Definition reports (tr : list event) : list bool :=
  flat_map (fun e => match e with EvReport b => [b] | _ => [] end) tr.

(** The pauses taken, in order. *)
Definition sleeps (tr : list event) : list Z :=
  flat_map (fun e => match e with EvSleep d => [d] | _ => [] end) tr.

Definition is_allow (e : event) : bool :=
  match e with EvAllow _ => true | _ => false end.

Definition is_go (e : event) : bool :=
  match e with EvGo _ => true | _ => false end.

Definition is_channel_open (e : event) : bool :=
  match e with EvChannelOpen _ => true | _ => false end.



Definition count (p : event -> bool) (tr : list event) : nat :=
  List.length (filter p tr).

(** Calls of [dial]: each starts with one [Allow]. *)
Definition attempts (tr : list event) : nat := count is_allow tr.

(** What a caller of [channel] sees of a run: its requests, the replies
    on its slots and its own pauses. *)
Definition caller_view (tr : list event) : list event :=
  filter (fun e => match e with
                   | EvAsk _ | EvReply _ _ | EvSleep _ => true
                   | _ => false
                   end) tr.





(** The breaker is closed with no failure in a row on record. *)
Definition closed_clean (cb : gobreaker.CircuitBreaker) : Prop :=
  gobreaker.state cb = gobreaker.StateClosed /\
  gobreaker.ConsecutiveFailures (gobreaker.counts cb) = 0.

(** A nil value received from [mq.notifyConnClose]. *)
Definition nil_notification (p : connSelect) : bool :=
  match p with RecvNotify None => true | _ => false end.

(** The events a body decodes to, by the words of the contract: the
    valid ones, in order. *)
Definition decodable (json_Unmarshal : list Byte.byte -> Event + error)
  (messages : list Delivery) : list Event :=
  flat_map (fun m => match json_Unmarshal (DeliveryBody m) with
                     | inl e => [e]
                     | inr _ => []
                     end) messages.

(* ===================================================================== *)
(** ** Reading a run of the arbiter *)
(* ===================================================================== *)







(** A run without its log lines. *)
Definition without_logs (tr : list event) : list event :=
  filter (fun e => match e with EvLog _ => false | _ => true end) tr.

(* ===================================================================== *)
(** ** Articles *)
(* ===================================================================== *)

(** The messages of the service, as the handlers use them. *)
Module pb.

Record Article : Type := mkArticle {
  Id     : string;
  UserId : string;
  Title  : string;
  Body   : string
}.

(** The getters of a message answer the zero value on a nil message. *)
Definition GetId (v : option Article) : string :=
  match v with Some v => Id v | None => "" end.

Definition GetUserId (v : option Article) : string :=
  match v with Some v => UserId v | None => "" end.

Definition GetTitle (v : option Article) : string :=
  match v with Some v => Title v | None => "" end.

Definition GetBody (v : option Article) : string :=
  match v with Some v => Body v | None => "" end.

(** [CreateArticleResponse], [UpdateArticleResponse] and
    [DeleteArticleResponse] have the same single field. *)
Record WriteResponse : Type := mkWriteResponse { IsSuccess : bool }.

Record GetArticleResponse : Type := mkGetArticleResponse {
  GetArticleResponse_Article : option Article
}.

End pb.

Module entity.

(** [entity.Article] *)
Record Article : Type := mkArticle {
  Id     : string;
  UserId : string;
  Title  : string;
  Body   : string
}.

(** [func ArticleFromPb(v *pb.Article) Article] *)
Definition ArticleFromPb (v : option pb.Article) : Article :=
  mkArticle (pb.GetId v) (pb.GetUserId v) (pb.GetTitle v) (pb.GetBody v).

End entity.

(* ===================================================================== *)
(** ** The read model: articles in Redis *)
(* ===================================================================== *)

(** What the package uses of go-redis and of the server behind it: a
    keyspace of hashes and sets, the commands HSET, SADD, DEL and
    HGETALL, the scan of a reply into an article, pipelines, and a client
    that refuses every command once it is closed. *)
Module redis.

Inductive value : Type :=
| Hash (fields : string -> option string)
| Members (members : list string)
| Other.                                (* a string, a list, ... *)

Record Client : Type := mkClient {
  keys   : string -> option value;
  closed : bool
}.

Definition ErrClosed : error := OtherError "redis: client is closed".

Definition WrongType : error :=
  OtherError "WRONGTYPE Operation against a key holding the wrong kind of value".

Definition store (key : string) (v : option value) (c : Client) : Client :=
  mkClient (fun k => if String.eqb k key then v else keys c k) (closed c).

(** The field-value pairs of one HSET, laid over the hash. *)
Fixpoint put (values : list (string * string)) (h : string -> option string)
  : string -> option string :=
  match values with
  | [] => h
  | (f, v) :: rest => put rest (fun k => if String.eqb k f then Some v else h k)
  end.

(** [HSET key field value ...] *)
Definition HSet (key : string) (values : list (string * string)) (c : Client)
  : Client * option error :=
  if closed c then (c, Some ErrClosed)
  else match keys c key with
       | None => (store key (Some (Hash (put values (fun _ => None)))) c, None)
       | Some (Hash h) => (store key (Some (Hash (put values h))) c, None)
       | Some _ => (c, Some WrongType)
       end.

(** [SADD key member] *)
Definition SAdd (key member : string) (c : Client) : Client * option error :=
  if closed c then (c, Some ErrClosed)
  else match keys c key with
       | None => (store key (Some (Members [member])) c, None)
       | Some (Members s) =>
           (store key
              (Some (Members (if existsb (String.eqb member) s then s
                              else s ++ [member]))) c,
            None)
       | Some _ => (c, Some WrongType)
       end.

(** [DEL key] *)
Definition Del (key : string) (c : Client) : Client * option error :=
  if closed c then (c, Some ErrClosed) else (store key None c, None).

(** [SISMEMBER key member], for reading the index in statements. *)
Definition SIsMember (key member : string) (c : Client) : bool :=
  match keys c key with
  | Some (Members s) => existsb (String.eqb member) s
  | _ => false
  end.

(** [*redis.MapStringStringCmd]: the reply and the error of the command. *)
Record MapStringStringCmd : Type := mkMapStringStringCmd {
  cmd_val : string -> option string;
  cmd_err : option error
}.

(** [HGETALL key]: a key that is not there reads as an empty hash. *)
Definition HGetAll (key : string) (c : Client) : MapStringStringCmd :=
  if closed c then mkMapStringStringCmd (fun _ => None) (Some ErrClosed)
  else match keys c key with
       | None => mkMapStringStringCmd (fun _ => None) None
       | Some (Hash h) => mkMapStringStringCmd h None
       | Some _ => mkMapStringStringCmd (fun _ => None) (Some WrongType)
       end.

(** [cmd.Scan(&article)]: the error of the command if it has one;
    otherwise every entry of the reply named like a [redis:"..."] tag of
    the struct is written to its field, and the fields without an entry
    are left as they are. *)
Definition Scan (cmd : MapStringStringCmd) (dest : entity.Article)
  : entity.Article * option error :=
  match cmd_err cmd with
  | Some err => (dest, Some err)
  | None =>
      let field (name old : string) :=
        match cmd_val cmd name with Some v => v | None => old end in
      (entity.mkArticle (field "id" (entity.Id dest))
                        (field "user_id" (entity.UserId dest))
                        (field "title" (entity.Title dest))
                        (field "body" (entity.Body dest)),
       None)
  end.

(** Commands queued on a pipeline. *)
Inductive Cmder : Type :=
| QueuedHSet (key : string) (values : list (string * string))
| QueuedSAdd (key member : string).

Definition process (cmd : Cmder) (c : Client) : Client * option error :=
  match cmd with
  | QueuedHSet key values => HSet key values c
  | QueuedSAdd key member => SAdd key member c
  end.

(** The queued commands in order; the first error is the one returned. *)
Fixpoint exec_all (cmds : list Cmder) (c : Client) : Client * option error :=
  match cmds with
  | [] => (c, None)
  | cmd :: rest =>
      let (c1, e1) := process cmd c in
      let (c2, e2) := exec_all rest c1 in
      (c2, match e1 with Some e => Some e | None => e2 end)
  end.

(** [pipe.Exec(ctx)]: with nothing queued there is nothing to send. *)
Definition Exec (cmds : list Cmder) (c : Client) : Client * option error :=
  match cmds with
  | [] => (c, None)
  | _ => if closed c then (c, Some ErrClosed) else exec_all cmds c
  end.

(** [c.TxPipelined(ctx, fn)]: [fn] queues on a fresh pipeline, which is
    then executed, unless [fn] returns an error. *)
Definition TxPipelined
  (fn : list Cmder -> Client -> Client * list Cmder * option error)
  (c : Client) : Client * option error :=
  let '(c, cmds, err) := fn [] c in
  match err with
  | Some err => (c, Some err)
  | None => Exec cmds c
  end.

(** [c.Close()] *)
Definition Close (c : Client) : Client * option error :=
  if closed c then (c, Some ErrClosed) else (mkClient (keys c) true, None).

End redis.

Module query.

(** [type DB struct { redis *redis.Client }] *)
Definition DB : Type := redis.Client.

Definition articlesPrefix : string := "articles".

(** [func addArticlesPrefix(key string) string] *)
Definition addArticlesPrefix (key : string) : string :=
  (articlesPrefix ++ ":" ++ key)%string.

(** [entity.Article{}] *)
Definition no_article : entity.Article := entity.mkArticle "" "" "" "".

(** [func (db DB) Close() error] *)
Definition Close (db : DB) : DB * option error := redis.Close db.

(** [func (db DB) Get(ctx, id string) (entity.Article, error)] *)
Definition Get (id : string) (db : DB) : entity.Article * option error :=
  let id := addArticlesPrefix id in
  let article := no_article in
  let (article, err) := redis.Scan (redis.HGetAll id db) article in
  match err with
  | Some err => (no_article, Some err)
  | None => (article, None)
  end.

Section GetMultiple.

(** [strconv.ParseInt(s, 10, 0)] *)
Variable strconv_ParseInt : string -> Z + error.
(** [db.redis.Sort(ctx, key, &redis.Sort{By, Offset, Count, Alpha}).Result()]:
    the members of the set in the order and window asked for, or the
    error. *)
Variable redis_Sort :
  string -> string -> Z -> Z -> bool -> redis.Client -> list string + error.

(** The second loop of [GetMultiple]: [for _, cmd := range commands]. *)
Fixpoint scan_all (commands : list redis.MapStringStringCmd)
                  (articles : list entity.Article)
  : list entity.Article + error :=
  match commands with
  | [] => inl articles
  | cmd :: rest =>
      let article := no_article in
      let (article, err) := redis.Scan cmd article in
      match err with
      | Some err => inr err
      | None => scan_all rest (articles ++ [article])
      end
  end.

(** [func (db DB) GetMultiple(ctx, offset, limit string) ([]entity.Article, error)]:
    the reads queued on the pipeline are answered when it is executed;
    the result of [pipeline.Exec] itself is not looked at. *)
Definition GetMultiple (offset limit : string) (db : DB)
  : list entity.Article + error :=
  match strconv_ParseInt offset with
  | inr err => inr err
  | inl off =>
      match strconv_ParseInt limit with
      | inr err => inr err
      | inl count =>
          match redis_Sort articlesPrefix (addArticlesPrefix "*->title")
                           off count true db with
          | inr err => inr err
          | inl ids =>
              let commands :=
                map (fun id => redis.HGetAll (addArticlesPrefix id) db) ids in
              scan_all commands []
          end
      end
  end.

End GetMultiple.

(** [func (db DB) Create(ctx, article entity.Article) error]: the two
    writes go to the client, not to the pipeline handed to the callback,
    and what they return is dropped. *)
Definition Create (article : entity.Article) (db : DB) : DB * option error :=
  let prefixedId := addArticlesPrefix (entity.Id article) in
  redis.TxPipelined
    (fun pipe db =>
       let values := [("id", entity.Id article);
                      ("user_id", entity.UserId article);
                      ("title", entity.Title article);
                      ("body", entity.Body article)] in
       let (db, _) := redis.HSet prefixedId values db in
       let (db, _) := redis.SAdd articlesPrefix (entity.Id article) db in
       (db, pipe, None))
    db.

(** [func (db DB) Update(ctx, article entity.Article) error] *)
Definition Update (article : entity.Article) (db : DB) : DB * option error :=
  Create article db.

(** [func (db DB) Delete(ctx, id string) error] *)
Definition Delete (id : string) (db : DB) : DB * option error :=
  redis.Del id db.

(** A call that writes. *)
Inductive write : Type :=
| CallCreate (article : entity.Article)
| CallUpdate (article : entity.Article)
| CallDelete (id : string).

Definition call_write (op : write) (db : DB) : DB :=
  match op with
  | CallCreate article => fst (Create article db)
  | CallUpdate article => fst (Update article db)
  | CallDelete id => fst (Delete id db)
  end.

Definition calls (ops : list write) (db : DB) : DB :=
  fold_left (fun db op => call_write op db) ops db.

(** The call neither writes the article of [id] nor deletes its key. *)
Definition spares (id : string) (op : write) : Prop :=
  match op with
  | CallCreate article | CallUpdate article => entity.Id article <> id
  | CallDelete key => key <> addArticlesPrefix id
  end.

(** The key holds a hash or nothing. *)
Definition hash_or_free (key : string) (db : DB) : Prop :=
  match redis.keys db key with
  | None | Some (redis.Hash _) => True
  | Some _ => False
  end.

(** The hash of the article is in place and the client is open. *)
Definition stored (a : entity.Article) (db : DB) : Prop :=
  redis.closed db = false /\
  exists h,
    redis.keys db (addArticlesPrefix (entity.Id a)) = Some (redis.Hash h) /\
    h "id" = Some (entity.Id a) /\
    h "user_id" = Some (entity.UserId a) /\
    h "title" = Some (entity.Title a) /\
    h "body" = Some (entity.Body a).

End query.

(* ===================================================================== *)
(** ** The write model: events in EventStoreDB *)
(* ===================================================================== *)

(** What the package uses of the EventStoreDB client and of the server
    behind it: streams of events numbered from zero, appends that may
    expect a revision, and reads of a stream from either end. *)
Module esdb.

Inductive ContentType : Type := ContentTypeBinary | ContentTypeJson.

Record EventData : Type := mkEventData {
  ContentType_ : ContentType;
  EventType_   : EventType;
  Data         : list Byte.byte
}.

Record RecordedEvent : Type := mkRecordedEvent {
  EventNumber : Z;
  Recorded    : EventData
}.

(** Links are not resolved: the original event is the event. *)
Record ResolvedEvent : Type := mkResolvedEvent { Event_ : RecordedEvent }.

Definition OriginalEvent (e : ResolvedEvent) : RecordedEvent := Event_ e.

Inductive ExpectedRevision : Type :=
| Any
| NoStream
| StreamExists
| Revision (n : Z).

(** The zero value has no expectation, which the client reads as [Any]. *)
Record AppendToStreamOptions : Type := mkAppendToStreamOptions {
  ExpectedRevision_ : option ExpectedRevision
}.

Inductive Direction : Type := Forwards | Backwards.

Inductive StreamPosition : Type := Start | End_.

Record ReadStreamOptions : Type := mkReadStreamOptions {
  Direction_ : Direction;
  From       : StreamPosition
}.

Record Client : Type := mkClient {
  streams : string -> list EventData;
  closed  : bool
}.

Definition ErrClosed : error := OtherError "esdb: connection is closed".
Definition ErrWrongExpectedVersion : error := OtherError "wrong expected version".
Definition ErrStreamNotFound : error := OtherError "stream not found".
Definition EOF : error := OtherError "EOF".

Definition expected (rev : ExpectedRevision) (events : list EventData) : bool :=
  match rev with
  | Any => true
  | NoStream => match events with [] => true | _ => false end
  | StreamExists => match events with [] => false | _ => true end
  | Revision n =>
      match events with
      | [] => false
      | _ => n =? Z.of_nat (List.length events) - 1
      end
  end.

(** [client.AppendToStream(ctx, streamID, opts, event)]; the write result
    is not used by the package. *)
Definition AppendToStream (streamID : string) (opts : AppendToStreamOptions)
                          (event : EventData) (c : Client)
  : Client * option error :=
  if closed c then (c, Some ErrClosed)
  else
    let rev := match ExpectedRevision_ opts with
               | Some rev => rev
               | None => Any
               end in
    if expected rev (streams c streamID)
    then (mkClient (fun s => if String.eqb s streamID
                             then streams c streamID ++ [event]
                             else streams c s)
                   (closed c),
          None)
    else (c, Some ErrWrongExpectedVersion).

(** The events of a stream with their numbers. *)
Definition numbered (events : list EventData) : list ResolvedEvent :=
  map (fun p => mkResolvedEvent (mkRecordedEvent (Z.of_nat (fst p)) (snd p)))
      (combine (seq 0 (List.length events)) events).

(** [*esdb.ReadStream]: whether the stream was found, and what is left
    to receive. *)
Record ReadStream_ : Type := mkReadStream {
  found   : bool;
  pending : list ResolvedEvent
}.

(** [client.ReadStream(ctx, streamID, opts, count)] *)
Definition ReadStream (streamID : string) (opts : ReadStreamOptions)
                      (count : nat) (c : Client) : ReadStream_ + error :=
  if closed c then inr ErrClosed
  else
    let all := numbered (streams c streamID) in
    let found := match all with [] => false | _ => true end in
    inl (mkReadStream found
           (firstn count
              (match Direction_ opts, From opts with
               | Forwards, Start => all
               | Forwards, End_ => []
               | Backwards, Start => rev (firstn 1 all)
               | Backwards, End_ => rev all
               end))).

(** [stream.Recv()] *)
Definition Recv (stream : ReadStream_) : (ResolvedEvent + error) * ReadStream_ :=
  if found stream
  then match pending stream with
       | [] => (inr EOF, stream)
       | e :: rest => (inl e, mkReadStream true rest)
       end
  else (inr ErrStreamNotFound, stream).

(** [client.Close()] *)
Definition Close (c : Client) : Client * option error :=
  (mkClient (streams c) true, None).

(** The stream [sid] grown by one event, the others as they were. *)
Definition grown (sid : string) (ev : EventData) (db db' : Client) : Prop :=
  forall s, streams db' s =
            if String.eqb s sid then streams db s ++ [ev] else streams db s.

End esdb.

Module cmd.

Section Eventstore.

(** [entity.ArticleEntity], a constant of the package. *)
Variable ArticleEntity : string.
(** [json.Marshal] of an article, of an id and of an event. *)
Variable Marshal_Article : entity.Article -> list Byte.byte + error.
Variable Marshal_string : string -> list Byte.byte + error.
Variable Marshal_Event : Event -> list Byte.byte + error.

(** [type DB struct { client *esdb.Client; ... }] *)
Definition DB : Type := esdb.Client.

(** [fmt.Sprintf("%s-%s", entity.ArticleEntity, id)] *)
Definition streamID (id : string) : string :=
  (ArticleEntity ++ "-" ++ id)%string.

(** [func (db DB) Close() error] *)
Definition Close (db : DB) : DB * option error := esdb.Close db.

(** [func (db DB) Create(ctx, article entity.Article) error]; [now] is
    what [time.Now()] answers.  The tracing spans are left out. *)
Definition Create (now : Z) (article : entity.Article) (db : DB)
  : DB * option error :=
  match Marshal_Article article with
  | inr err => (db, Some err)
  | inl jsonArticle =>
      let e := mkEvent ArticleEntity Created jsonArticle now in
      match Marshal_Event e with
      | inr err => (db, Some err)
      | inl data =>
          let eventData :=
            esdb.mkEventData esdb.ContentTypeJson (Type_ e) data in
          let streamID := streamID (entity.Id article) in
          let (db, err) :=
            esdb.AppendToStream streamID (esdb.mkAppendToStreamOptions None)
                                eventData db in
          match err with
          | Some err => (db, Some err)
          | None => (db, None)
          end
      end
  end.

(** [func (db DB) lastRevision(ctx, articleId string)] *)
Definition lastRevision (articleId : string) (db : DB)
  : esdb.ResolvedEvent + error :=
  let readOpts := esdb.mkReadStreamOptions esdb.Backwards esdb.End_ in
  let streamID := streamID articleId in
  match esdb.ReadStream streamID readOpts 1 db with
  | inr err => inr err
  | inl stream =>
      match fst (esdb.Recv stream) with
      | inr err => inr err
      | inl lastEvent => inl lastEvent
      end
  end.

(** [func (db DB) Update(ctx, article entity.Article) error] *)
Definition Update (now : Z) (article : entity.Article) (db : DB)
  : DB * option error :=
  match Marshal_Article article with
  | inr err => (db, Some err)
  | inl jsonArticle =>
      let e := mkEvent ArticleEntity Updated jsonArticle now in
      match Marshal_Event e with
      | inr err => (db, Some err)
      | inl data =>
          match lastRevision (entity.Id article) db with
          | inr err => (db, Some err)
          | inl lastEvent =>
              let appendOpts :=
                esdb.mkAppendToStreamOptions
                  (Some (esdb.Revision
                           (esdb.EventNumber (esdb.OriginalEvent lastEvent)))) in
              let eventData :=
                esdb.mkEventData esdb.ContentTypeJson (Type_ e) data in
              let streamID := streamID (entity.Id article) in
              let (db, err) :=
                esdb.AppendToStream streamID appendOpts eventData db in
              match err with
              | Some err => (db, Some err)
              | None => (db, None)
              end
          end
      end
  end.

(** [func (db DB) Delete(ctx, id string) error] *)
Definition Delete (now : Z) (id : string) (db : DB) : DB * option error :=
  match Marshal_string id with
  | inr err => (db, Some err)
  | inl jsonID =>
      let e := mkEvent ArticleEntity Deleted jsonID now in
      match Marshal_Event e with
      | inr err => (db, Some err)
      | inl data =>
          let eventData :=
            esdb.mkEventData esdb.ContentTypeJson (Type_ e) data in
          let streamID := streamID id in
          let (db, err) :=
            esdb.AppendToStream streamID (esdb.mkAppendToStreamOptions None)
                                eventData db in
          match err with
          | Some err => (db, Some err)
          | None => (db, None)
          end
      end
  end.

(** A call that writes, with the time it is made at. *)
Inductive write : Type :=
| CallCreate (now : Z) (article : entity.Article)
| CallUpdate (now : Z) (article : entity.Article)
| CallDelete (now : Z) (id : string).

Definition call_write (op : write) (db : DB) : DB * option error :=
  match op with
  | CallCreate now article => Create now article db
  | CallUpdate now article => Update now article db
  | CallDelete now id => Delete now id db
  end.

Definition calls (ops : list write) (db : DB) : DB :=
  fold_left (fun db op => fst (call_write op db)) ops db.

(** The id the call is about. *)
Definition target (op : write) : string :=
  match op with
  | CallCreate _ article | CallUpdate _ article => entity.Id article
  | CallDelete _ id => id
  end.

(** The calls about the stream [sid]. *)
Definition about (sid : string) (ops : list write) : list write :=
  filter (fun op => String.eqb sid (streamID (target op))) ops.

End Eventstore.

End cmd.

(* ===================================================================== *)
(** ** The two stores behind one interface *)
(* ===================================================================== *)

Module storage.

(** [type DB struct { cmd Eventstore; query Getter; ... }], with the
    stores the server puts in. *)
Record DB : Type := mkDB {
  cmd_   : cmd.DB;
  query_ : query.DB
}.

Section Storage.

Variable ArticleEntity : string.
Variable Marshal_Article : entity.Article -> list Byte.byte + error.
Variable Marshal_string : string -> list Byte.byte + error.
Variable Marshal_Event : Event -> list Byte.byte + error.
Variable strconv_ParseInt : string -> Z + error.
Variable redis_Sort :
  string -> string -> Z -> Z -> bool -> redis.Client -> list string + error.

(** [func (storage DB) Close() error] *)
Definition Close (storage : DB) : DB * option error :=
  let (c, err) := cmd.Close (cmd_ storage) in
  let (q, _) := query.Close (query_ storage) in
  (mkDB c q, err).

(** [func (storage DB) Get(ctx, id string) (entity.Article, error)] *)
Definition Get (id : string) (storage : DB) : entity.Article * option error :=
  query.Get id (query_ storage).

(** [func (storage DB) GetMultiple(ctx, offset, limit string) ([]entity.Article, error)] *)
Definition GetMultiple (offset limit : string) (storage : DB)
  : list entity.Article + error :=
  query.GetMultiple strconv_ParseInt redis_Sort offset limit (query_ storage).

(** [func (storage DB) Update(ctx, article entity.Article) error] *)
Definition Update (now : Z) (article : entity.Article) (storage : DB)
  : DB * option error :=
  let (c, err) :=
    cmd.Update ArticleEntity Marshal_Article Marshal_Event now article
               (cmd_ storage) in
  (mkDB c (query_ storage), err).

(** [func (storage DB) Create(ctx, article entity.Article) error] *)
Definition Create (now : Z) (article : entity.Article) (storage : DB)
  : DB * option error :=
  let (c, err) :=
    cmd.Create ArticleEntity Marshal_Article Marshal_Event now article
               (cmd_ storage) in
  (mkDB c (query_ storage), err).

(** [func (storage DB) Delete(ctx, id string) error] *)
Definition Delete (now : Z) (id : string) (storage : DB) : DB * option error :=
  let (c, err) :=
    cmd.Delete ArticleEntity Marshal_string Marshal_Event now id
               (cmd_ storage) in
  (mkDB c (query_ storage), err).

End Storage.

End storage.

(* ===================================================================== *)
(** ** The gRPC handlers *)
(* ===================================================================== *)

Module codes.

(** The status codes the handlers use. *)
Inductive Code : Type := InvalidArgument | Internal.

End codes.

Module server.

(** What a handler returns for an error: a status made by
    [status.Errorf] from a code and the error at hand, or the error as
    it came. *)
Inductive rpc_error : Type :=
| Status (code : codes.Code) (cause : error)
| Plain (err : error).

Section ArticleServer.

Variable ArticleEntity : string.
Variable Marshal_Article : entity.Article -> list Byte.byte + error.
Variable Marshal_string : string -> list Byte.byte + error.
Variable Marshal_Event : Event -> list Byte.byte + error.
Variable strconv_ParseInt : string -> Z + error.
Variable redis_Sort :
  string -> string -> Z -> Z -> bool -> redis.Client -> list string + error.
(** [entity.MakeArticleFromPb], which is not among the sources. *)
Variable MakeArticleFromPb : option pb.Article -> entity.Article.
(** The event handler behind its interface, and its [ResilientPublish]. *)
Variable Handler : Type.
Variable ResilientPublish : Event -> Handler -> Handler * option error.

(** [type ArticleServer struct] *)
Record ArticleServer : Type := mkArticleServer {
  storage      : storage.DB;
  eventHandler : Handler
}.

(** [func (s ArticleServer) Create(ctx, req)];
    [req] is given by [req.GetArticle()], and [stored_at] and [now] are
    what [time.Now()] answers in the storage and then in the handler. *)
Definition Create (stored_at now : Z) (req : option pb.Article) (s : ArticleServer)
  : ArticleServer * (option pb.WriteResponse * option rpc_error) :=
  let article := MakeArticleFromPb req in
  let (st, err) :=
    storage.Create ArticleEntity Marshal_Article Marshal_Event
                   stored_at article (storage s) in
  let s := mkArticleServer st (eventHandler s) in
  match err with
  | Some err => (s, (None, Some (Status codes.InvalidArgument err)))
  | None =>
      match Marshal_Article article with
      | inr err => (s, (None, Some (Plain err)))
      | inl json =>
          let event := mkEvent ArticleEntity Created json now in
          let (h, _) := ResilientPublish event (eventHandler s) in
          (mkArticleServer (storage s) h,
           (Some (pb.mkWriteResponse true), None))
      end
  end.

(** [func (s ArticleServer) Delete(ctx, req)];
    [req] is given by [req.GetId()]; [stored_at] and [now] as in [Create]. *)
Definition Delete (stored_at now : Z) (req : string) (s : ArticleServer)
  : ArticleServer * (option pb.WriteResponse * option rpc_error) :=
  let (st, err) :=
    storage.Delete ArticleEntity Marshal_string Marshal_Event
                   stored_at req (storage s) in
  let s := mkArticleServer st (eventHandler s) in
  match err with
  | Some err => (s, (None, Some (Status codes.InvalidArgument err)))
  | None =>
      match Marshal_string req with
      | inr err => (s, (None, Some (Plain err)))
      | inl json =>
          let event := mkEvent ArticleEntity Deleted json now in
          let (h, _) := ResilientPublish event (eventHandler s) in
          (mkArticleServer (storage s) h,
           (Some (pb.mkWriteResponse true), None))
      end
  end.

(** [func (s ArticleServer) Update(ctx, req)];
    [req] is given by [req.GetArticle()]; [stored_at] and [now] as in
    [Create]. *)
Definition Update (stored_at now : Z) (req : option pb.Article) (s : ArticleServer)
  : ArticleServer * (option pb.WriteResponse * option rpc_error) :=
  let article := MakeArticleFromPb req in
  let (st, err) :=
    storage.Update ArticleEntity Marshal_Article Marshal_Event
                   stored_at article (storage s) in
  let s := mkArticleServer st (eventHandler s) in
  match err with
  | Some err => (s, (None, Some (Status codes.InvalidArgument err)))
  | None =>
      match Marshal_Article article with
      | inr err => (s, (None, Some (Plain err)))
      | inl json =>
          let event := mkEvent ArticleEntity Updated json now in
          let (h, _) := ResilientPublish event (eventHandler s) in
          (mkArticleServer (storage s) h,
           (Some (pb.mkWriteResponse true), None))
      end
  end.

(** What a write handler does, by what the storage answered. *)
Definition answered (kind : EventType) (now : Z)
           (encoded : list Byte.byte + error)
           (stored : storage.DB * option error)
           (s : ArticleServer)
           (r : ArticleServer
                * (option pb.WriteResponse * option rpc_error)) : Prop :=
  storage (fst r) = fst stored /\
  match snd stored with
  | Some err =>
      snd r = (None, Some (Status codes.InvalidArgument err)) /\
      eventHandler (fst r) = eventHandler s
  | None =>
      snd r = (Some (pb.mkWriteResponse true), None) /\
      exists json,
        encoded = inl json /\
        eventHandler (fst r) =
          fst (ResilientPublish (mkEvent ArticleEntity kind json now)
                                (eventHandler s))
  end.

(** [&pb.Article{Id: v.Id, UserId: v.UserId, Title: v.Title, Body: v.Body}] *)
Definition to_pb (v : entity.Article) : pb.Article :=
  pb.mkArticle (entity.Id v) (entity.UserId v) (entity.Title v) (entity.Body v).

(** [func (s ArticleServer) Get(ctx, req)];
    [req] is given by [req.GetArticleId()]. *)
Definition Get (req : string) (s : ArticleServer)
  : option pb.GetArticleResponse * option rpc_error :=
  let (article, err) := storage.Get req (storage s) in
  match err with
  | Some err => (None, Some (Status codes.Internal err))
  | None => (Some (pb.mkGetArticleResponse (Some (to_pb article))), None)
  end.

Section Stream.

(** [stream.Send], by the number of messages handed to it before. *)
Variable Send : nat -> pb.Article -> option error.
(** Whether [ctx.Done()] is ready when the loop selects, by the number of
    messages handed to [Send] before. *)
Variable ctx_done : nat -> bool.

(** [for _, v := range articles]; [sent] is what was handed to [Send]. *)
Fixpoint send_each (articles : list entity.Article) (sent : list pb.Article)
  : list pb.Article * option error :=
  match articles with
  | [] => (sent, None)
  | v :: rest =>
      if ctx_done (List.length sent) then (sent, None)   (* case <-ctx.Done() *)
      else
        let article := to_pb v in
        match Send (List.length sent) article with
        | Some err => (sent ++ [article], Some err)
        | None => send_each rest (sent ++ [article])
        end
  end.

(** [func (s ArticleServer) GetStream(req, stream) error]; [req] is given
    by [req.GetOffset()] and [req.GetLimit()]. *)
Definition GetStream (offset limit : string) (s : ArticleServer)
  : list pb.Article * option error :=
  match storage.GetMultiple strconv_ParseInt redis_Sort offset limit
                            (storage s) with
  | inr err => ([], Some err)
  | inl articles => send_each articles []
  end.

End Stream.

End ArticleServer.

End server.

(* ===================================================================== *)
(** ** A deployment to run the client in *)
(* ===================================================================== *)

Module Scenario.

Definition second : Z := 1000000000.

(** The configuration of the example in the comment of [NewRabbitMQ]. *)
Definition config : Config :=
  mkConfig 100 100 (2 * second) 5 (5 * second) (5 * second).

Definition forced_close : amqp.Error :=
  amqp.mkError amqp.ConnectionForced "CONNECTION_FORCED".

Definition not_found : amqp.Error :=
  amqp.mkError amqp.NotFound "NOT_FOUND".

(** A broker that refuses every connection. *)
Definition broker_down : nat -> amqp.Connection + error :=
  fun _ => inr (AmqpError forced_close).

(** A broker that takes the first connection and then goes away. *)
Definition broker_up_once : nat -> amqp.Connection + error :=
  fun k => match k with
           | O => inl (amqp.mkConnection 0)
           | S _ => inr (AmqpError forced_close)
           end.

(** A broker that comes back at the third attempt. *)
Definition broker_back : nat -> amqp.Connection + error :=
  fun k => if (k <? 2)%nat then inr (AmqpError forced_close)
           else inl (amqp.mkConnection k).

(** A connection on which no channel can be opened. *)
Definition no_channel : amqp.Connection -> nat -> amqp.Channel + error :=
  fun _ _ => inr (AmqpError (amqp.mkError amqp.ChannelError "CHANNEL_ERROR")).

(** A connection whose third [Channel] call succeeds. *)
Definition third_channel : amqp.Connection -> nat -> amqp.Channel + error :=
  fun c k => if (k <? 2)%nat
             then inr (AmqpError (amqp.mkError amqp.ChannelError "CHANNEL_ERROR"))
             else inl (amqp.mkChannel (amqp.conn_id c) k).

Definition still_open : amqp.Connection -> bool := fun _ => false.
Definition closes_fine : amqp.Connection -> option error := fun _ => None.

(** The client before its first dial, with the gobreaker breaker. *)
Definition fresh : RabbitMQ gobreaker.CircuitBreaker :=
  new_RabbitMQ "article-service" "guest" "guest" "localhost" "5672" config 0.

(** The client as [NewRabbitMQ] returns it once the broker answered. *)
Definition connected : RabbitMQ gobreaker.CircuitBreaker :=
  final (NewRabbitMQ broker_up_once 1
           "article-service" "guest" "guest" "localhost" "5672" config 0).

(** The same client after [Close]. *)
Definition closed : RabbitMQ gobreaker.CircuitBreaker :=
  final (Close still_open closes_fine connected).

(** The client of the errgroup variant once [Run] has dialled. *)
Definition running : RabbitMQ gobreaker.CircuitBreaker :=
  final (dial broker_up_once fresh).

(** That client after six channel requests failed in a row: its breaker
    has tripped. *)
Definition tripped : RabbitMQ gobreaker.CircuitBreaker :=
  final (ErrGroup.handleChannelReads no_channel
           (map RecvReq (seq 0 6)) running).

(** An event, a serializer for it, and the client with its queue full. *)
Definition article_created : Event :=
  mkEvent "article" Created [Byte.x7b; Byte.x7d] 0.

Definition toy_MessageFromEvent (e : Event) : Message :=
  mkMessage "article.event.created" "application/json" (Body e).

Definition full_queue : RabbitMQ gobreaker.CircuitBreaker :=
  set_publishQueue (repeat (toy_MessageFromEvent article_created) 100) connected.

(** A decoder that takes any body but the empty one. *)
Definition toy_Unmarshal (body : list Byte.byte) : Event + error :=
  match body with
  | [] => inr (OtherError "unexpected end of JSON input")
  | _ => inl (mkEvent "article" Created body 0)
  end.




(** An article, and a Redis that holds nothing yet. *)
Definition hello : entity.Article :=
  entity.mkArticle "1" "u1" "Hello" "First post".

Definition empty_redis : redis.Client := redis.mkClient (fun _ => None) false.

(** An event store that holds nothing yet, and stand-ins for
    [json.Marshal] that never fail. *)
Definition empty_esdb : esdb.Client := esdb.mkClient (fun _ => []) false.

Definition toy_Marshal_Article (a : entity.Article) : list Byte.byte + error :=
  inl (list_byte_of_string (entity.Title a)).

Definition toy_Marshal_string (s : string) : list Byte.byte + error :=
  inl (list_byte_of_string s).

Definition toy_Marshal_Event (e : Event) : list Byte.byte + error :=
  inl (Body e).

(** A handler that keeps the events it is handed, and a server on empty
    stores. *)
Definition toy_ResilientPublish (e : Event) (h : list Event)
  : list Event * option error :=
  (h ++ [e], None).

Definition fresh_server : server.ArticleServer (list Event) :=
  server.mkArticleServer (storage.mkDB empty_esdb empty_redis) [].

(** Stand-ins for [strconv.ParseInt] and for SORT: two numerals are
    understood, and the members of the set come in the order they were
    added, whatever the window. *)
Definition toy_ParseInt (s : string) : Z + error :=
  if String.eqb s "0" then inl 0
  else if String.eqb s "10" then inl 10
  else inr (OtherError "invalid syntax").

Definition toy_Sort (key by_ : string) (offset count : Z) (alpha : bool)
                    (c : redis.Client) : list string + error :=
  if redis.closed c then inr redis.ErrClosed
  else match redis.keys c key with
       | None => inl []
       | Some (redis.Members s) => inl s
       | Some _ => inr redis.WrongType
       end.

(** Two articles were written to Redis, and the hash of the first was
    deleted. *)
Definition one_hash_gone : redis.Client :=
  query.calls [query.CallCreate hello;
               query.CallCreate (entity.mkArticle "2" "u2" "Bye" "Last post");
               query.CallDelete "articles:1"]
              empty_redis.

End Scenario.

(* ===================================================================== *)
(** * Properties *)
(* ===================================================================== *)

(** ** Error classification *)

Lemma code_in_spec code l : code_in code l = true <-> In code l.
Proof.
  unfold code_in. rewrite existsb_exists. split.
  - intros [x [Hin Heq]]. apply Z.eqb_eq in Heq. now subst.
  - intros Hin. exists code. split; [assumption | apply Z.eqb_refl].
Qed.

Lemma errorType_channel code :
  errorType code = channelError <-> In code channel_level_codes.
Proof.
  rewrite <- code_in_spec. unfold errorType.
  destruct (code_in code channel_level_codes).
  - tauto.
  - destruct (code_in code connection_level_codes);
      (split; discriminate).
Qed.

Lemma errorType_connection code :
  errorType code = connectionError <-> ~ In code channel_level_codes.
Proof.
  rewrite <- code_in_spec. unfold errorType.
  destruct (code_in code channel_level_codes).
  - split; [discriminate | intros Hn; now elim Hn].
  - destruct (code_in code connection_level_codes);
      (split; [intros _; discriminate | reflexivity]).
Qed.

(** C6: the classifier is total and single-valued: every code is
    connection-level or channel-level and never both; content-too-large,
    not-found, resource-locked and precondition-failed are channel-level;
    forced close, the framing errors and internal error are
    connection-level; a code outside the channel-level list, listed or
    not, is connection-level; and [isConnectionError] holds exactly when
    the classification is connection-level. *)
Theorem errorType_classifies_every_code :
  (forall code, (errorType code = connectionError /\ errorType code <> channelError) \/
                (errorType code = channelError /\ errorType code <> connectionError)) /\
  (errorType amqp.ContentTooLarge = channelError /\
   errorType amqp.NotFound = channelError /\
   errorType amqp.ResourceLocked = channelError /\
   errorType amqp.PreconditionFailed = channelError) /\
  (errorType amqp.ConnectionForced = connectionError /\
   errorType amqp.FrameError = connectionError /\
   errorType amqp.UnexpectedFrame = connectionError /\
   errorType amqp.InternalError = connectionError) /\
  (forall code, In code connection_level_codes -> errorType code = connectionError) /\
  (forall code, ~ In code channel_level_codes -> ~ In code connection_level_codes ->
                errorType code = connectionError) /\
  (forall err, isConnectionError err = true <->
               errorType (amqp.Code err) = connectionError).
Proof.
  split; [| split; [| split; [| split; [| split]]]].
  - intros code. unfold errorType.
    destruct (code_in code channel_level_codes);
      [right | left; destruct (code_in code connection_level_codes)];
      split; (reflexivity || discriminate).
  - repeat split.
  - repeat split.
  - intros code Hin. apply errorType_connection. intros Hch.
    simpl in Hin, Hch. unfold amqp.ContentTooLarge, amqp.NoConsumers,
      amqp.AccessRefused, amqp.NotFound, amqp.ResourceLocked,
      amqp.PreconditionFailed, amqp.ConnectionForced, amqp.InvalidPath,
      amqp.FrameError, amqp.SyntaxError, amqp.CommandInvalid, amqp.ChannelError,
      amqp.UnexpectedFrame, amqp.ResourceError, amqp.NotAllowed,
      amqp.NotImplemented, amqp.InternalError in *.
    lia.
  - intros code Hch _. now apply errorType_connection.
  - intros err. unfold isConnectionError. apply Z.eqb_eq.
Qed.

(** The theorem at a forced close (320) and at a code the switch does
    not list (312, no route): both are connection-level. *)
Lemma errorType_forced_close_and_unlisted :
  errorType 320 = connectionError /\
  errorType 312 = connectionError /\
  isConnectionError (amqp.mkError 320 "CONNECTION_FORCED") = true.
Proof.
  destruct errorType_classifies_every_code
    as (_ & _ & _ & Hlisted & Hdefault & Hiff).
  split; [apply Hlisted; cbn; tauto |].
  split.
  - apply Hdefault; cbn; unfold amqp.ContentTooLarge, amqp.NoConsumers,
      amqp.AccessRefused, amqp.NotFound, amqp.ResourceLocked,
      amqp.PreconditionFailed, amqp.ConnectionForced, amqp.InvalidPath,
      amqp.FrameError, amqp.SyntaxError, amqp.CommandInvalid, amqp.ChannelError,
      amqp.UnexpectedFrame, amqp.ResourceError, amqp.NotAllowed,
      amqp.NotImplemented, amqp.InternalError; lia.
  - apply Hiff. apply Hlisted. cbn. tauto.
Defined.

(** ** Runs and their traces *)

Lemma performed_app {B A : Type} {w : RabbitMQ B} {o : outcome (RabbitMQ B) A} {tr} :
  effects (final o) = effects w ++ tr -> performed w o = tr.
Proof.
  intros E. unfold performed. rewrite E.
  rewrite skipn_app, skipn_all, Nat.sub_diag. reflexivity.
Qed.

Lemma reports_app l1 l2 : reports (l1 ++ l2) = reports l1 ++ reports l2.
Proof. unfold reports. apply flat_map_app. Qed.

Lemma sleeps_app l1 l2 : sleeps (l1 ++ l2) = sleeps l1 ++ sleeps l2.
Proof. unfold sleeps. apply flat_map_app. Qed.

Lemma count_app p l1 l2 : count p (l1 ++ l2) = (count p l1 + count p l2)%nat.
Proof. unfold count. rewrite filter_app. apply length_app. Qed.

Lemma attempts_app l1 l2 : attempts (l1 ++ l2) = (attempts l1 + attempts l2)%nat.
Proof. apply count_app. Qed.


Lemma outcome_map_final {W A : Type} (f : W -> W) (o : outcome W A) :
  final (outcome_map f o) = f (final o).
Proof. destruct o; reflexivity. Qed.

(** Unfolding the primitive steps, then putting traces in the shape
    [effects w ++ steps]. *)
Ltac unfold_steps :=
  unfold breaker_Allow, Dial, Channel, call, call_func, assert_amqp_Error,
    mutex_Lock, mutex_Unlock, write_connection, read_connection, send,
    limiter_acquire, limiter_release, Log, Sleep, emit, go, go_detached,
    make_ask, recv, bind, ret in *.

Ltac tidy := cbn; repeat rewrite <- app_assoc; cbn [app].

(** ** [dial] *)

Section DialProperties.
Context {B : Type} `{TwoStepCircuitBreaker B}.
Variable amqp_Dial : nat -> amqp.Connection + error.

(** Case analysis along the branches of [dial]. *)
Ltac dial_cases w :=
  unfold dial; unfold_steps; cbn;
  destruct (Allow (now w) (breaker w)) as [? [? | ?]]; cbn;
  [ destruct (amqp_Dial (dialed w)) as [? | [e | ?]] eqn:?; cbn;
    [ destruct (mutex w) eqn:?; cbn
    | destruct (isConnectionError e) eqn:?; cbn
    | ]
  | ].

(** Every call of [dial] asks the breaker once, never sleeps, starts no
    goroutine and leaves the configuration alone.  It returns nil only
    after [amqp.Dial] returned a connection, which is then the client's;
    a failed call leaves the old one. *)
Lemma dial_spec (w : RabbitMQ B) :
  exists tr,
    effects (final (dial amqp_Dial w)) = effects w ++ tr /\
    config (final (dial amqp_Dial w)) = config w /\
    attempts tr = 1%nat /\ sleeps tr = [] /\ count is_go tr = O /\
    match dial amqp_Dial w with
    | Returned None w' =>
        exists conn, amqp_Dial (dialed w) = inl conn /\
                     connection w' = Some conn /\ dialed w' = S (dialed w) /\
                     In EvWriteConn tr
    | Returned (Some _) w' => connection w' = connection w
    | Panicked _ _ | Blocked _ => True
    | Running _ => False
    end.
Proof.
  dial_cases w; tidy; eexists; (repeat split; try reflexivity).
  eexists; repeat split; try eassumption; try reflexivity.
  simpl; tauto.
Qed.

(** [dial] never looks at the context. *)
Lemma dial_ignores_ctx (c : bool) (w : RabbitMQ B) :
  dial amqp_Dial (set_cancelled c w) = outcome_map (set_cancelled c) (dial amqp_Dial w).
Proof.
  dial_cases w; reflexivity.
Qed.

(** While [amqp.Dial] keeps failing with broker errors, [dial] returns an
    error: it neither succeeds, nor panics, nor waits. *)
Lemma dial_fails (w : RabbitMQ B) :
  (forall k, (dialed w <= k)%nat -> exists e, amqp_Dial k = inr (AmqpError e)) ->
  exists err w', dial amqp_Dial w = Returned (Some err) w' /\
                 (dialed w <= dialed w')%nat /\ connection w' = connection w.
Proof.
  intros Hdown. destruct (Hdown (dialed w) (Nat.le_refl _)) as [e0 He0].
  unfold dial; unfold_steps; cbn.
  destruct (Allow (now w) (breaker w)) as [b [t | err]]; cbn.
  - rewrite He0; cbn.
    destruct (isConnectionError e0); cbn; do 2 eexists; (split; [reflexivity | cbn; split; [lia | reflexivity]]).
  - do 2 eexists; (split; [reflexivity | cbn; split; [lia | reflexivity]]).
Qed.

End DialProperties.

(** ** The redial loop *)

Section ReDialProperties.
Context {B : Type} `{TwoStepCircuitBreaker B}.
Variable amqp_Dial : nat -> amqp.Connection + error.

(** One turn of the loop, by the result of its [dial]. *)
Lemma ReDial_turn (fuel : nat) (w : RabbitMQ B) :
  ReDial amqp_Dial (S fuel) w =
  match dial amqp_Dial (set_effects (effects w ++ [EvLog "Reconnecting to RabbitMQ"]) w) with
  | Returned None w' => Returned tt w'
  | Returned (Some _) w' =>
      ReDial amqp_Dial fuel
        (set_effects ((effects w' ++ [EvLog "Failed to connect to RabbitMQ"])
                        ++ [EvSleep (ReconnectInterval (config w'))])
           (set_now (now w' + ReconnectInterval (config w'))
              (set_effects (effects w' ++ [EvLog "Failed to connect to RabbitMQ"]) w')))
  | Panicked why w' => Panicked why w'
  | Blocked w' => Blocked w'
  | Running w' => Running w'
  end.
Proof.
  cbn [ReDial]. unfold bind at 1 2. unfold Log at 1, emit at 1.
  destruct (dial amqp_Dial _) as [[err|] w' | | |]; reflexivity.
Qed.

(** The loop as a whole: [k] failed attempts, each followed by one pause
    of the reconnect interval; a return only after a successful [dial]. *)
Lemma ReDial_spec (fuel : nat) : forall w : RabbitMQ B,
  exists k tr,
    effects (final (ReDial amqp_Dial fuel w)) = effects w ++ tr /\
    config (final (ReDial amqp_Dial fuel w)) = config w /\
    sleeps tr = repeat (ReconnectInterval (config w)) k /\
    count is_go tr = O /\
    match ReDial amqp_Dial fuel w with
    | Returned _ w' =>
        attempts tr = S k /\ (k < fuel)%nat /\
        exists conn, connection w' = Some conn /\
                     amqp_Dial (pred (dialed w')) = inl conn /\
                     In EvWriteConn tr
    | Running w' => attempts tr = k /\ k = fuel
    | Panicked _ _ | Blocked _ => attempts tr = S k /\ (k < fuel)%nat
    end.
Proof.
  induction fuel as [| fuel IH]; intros w.
  - exists O, []. cbn. rewrite app_nil_r. repeat split.
  - rewrite ReDial_turn.
    set (w1 := set_effects (effects w ++ [EvLog "Reconnecting to RabbitMQ"]) w).
    destruct (dial_spec amqp_Dial w1) as (trd & Ed & Cd & Ad & Sd & Gd & Rd).
    assert (E1 : effects w1 = effects w ++ [EvLog "Reconnecting to RabbitMQ"])
      by reflexivity.
    assert (C1 : config w1 = config w) by reflexivity.
    destruct (dial amqp_Dial w1) as [[err|] w2 | why w2 | w2 | w2];
      cbn [final] in *; [| | | | contradiction].
    + (* this attempt failed: pause, then the rest of the loop *)
      match goal with |- context [ReDial amqp_Dial fuel ?x] => set (w3 := x) end.
      destruct (IH w3) as (k & tr & E & C & Sl & G & R).
      assert (Cw3 : config w3 = config w) by (subst w3; cbn; congruence).
      assert (Ew3 : effects w3 =
                    effects w ++ ([EvLog "Reconnecting to RabbitMQ"] ++ trd)
                      ++ [EvLog "Failed to connect to RabbitMQ";
                          EvSleep (ReconnectInterval (config w))]).
      { subst w3; cbn. rewrite Ed, Cd, E1, C1.
        repeat rewrite <- app_assoc. reflexivity. }
      exists (S k), (([EvLog "Reconnecting to RabbitMQ"] ++ trd)
                       ++ [EvLog "Failed to connect to RabbitMQ";
                           EvSleep (ReconnectInterval (config w))] ++ tr).
      split; [| split; [| split; [| split]]].
      * rewrite E, Ew3. repeat rewrite <- app_assoc. reflexivity.
      * congruence.
      * rewrite !sleeps_app, Sd, Sl, Cw3. reflexivity.
      * rewrite !count_app, Gd, G. reflexivity.
      * destruct (ReDial amqp_Dial fuel w3) as [[] w4 | why w4 | w4 | w4];
          rewrite !attempts_app, Ad; cbn.
        -- destruct R as (Ra & Rk & conn & Rc & Rd' & Rin).
           split; [lia | split; [lia |]].
           exists conn. repeat split; try assumption.
           right. apply in_or_app. right. right. right. exact Rin.
        -- destruct R as (Ra & Rk). split; lia.
        -- destruct R as (Ra & Rk). split; lia.
        -- destruct R as (Ra & Rk). split; lia.
    + (* this attempt succeeded *)
      destruct Rd as (conn & Hd & Hc & Hn & Hin).
      exists O, ([EvLog "Reconnecting to RabbitMQ"] ++ trd).
      rewrite sleeps_app, count_app, attempts_app, Sd, Gd, Ad.
      split; [rewrite Ed, E1, <- app_assoc; reflexivity |].
      split; [congruence |]. repeat split; try lia.
      exists conn. rewrite Hn. cbn [pred]. repeat split; try assumption.
      right. exact Hin.
    + exists O, ([EvLog "Reconnecting to RabbitMQ"] ++ trd).
      rewrite sleeps_app, count_app, attempts_app, Sd, Gd, Ad.
      split; [rewrite Ed, E1, <- app_assoc; reflexivity |].
      split; [congruence |]. repeat split; lia.
    + exists O, ([EvLog "Reconnecting to RabbitMQ"] ++ trd).
      rewrite sleeps_app, count_app, attempts_app, Sd, Gd, Ad.
      split; [rewrite Ed, E1, <- app_assoc; reflexivity |].
      split; [congruence |]. repeat split; lia.
Qed.

(** The loop never looks at the context. *)
Lemma ReDial_ignores_ctx (c : bool) (fuel : nat) : forall w : RabbitMQ B,
  ReDial amqp_Dial fuel (set_cancelled c w) =
  outcome_map (set_cancelled c) (ReDial amqp_Dial fuel w).
Proof.
  induction fuel as [| fuel IH]; intros w; [reflexivity |].
  rewrite !ReDial_turn.
  change (set_effects (effects (set_cancelled c w) ++ [EvLog "Reconnecting to RabbitMQ"])
            (set_cancelled c w))
    with (set_cancelled c (set_effects (effects w ++ [EvLog "Reconnecting to RabbitMQ"]) w)).
  rewrite dial_ignores_ctx.
  destruct (dial amqp_Dial _) as [[err|] w2 | why w2 | w2 | w2]; cbn [outcome_map];
    try reflexivity.
  rewrite <- IH. reflexivity.
Qed.

(** While [amqp.Dial] keeps failing with broker errors the loop is still
    running after any number of turns. *)
Lemma ReDial_keeps_running (fuel : nat) : forall w : RabbitMQ B,
  (forall k, (dialed w <= k)%nat -> exists e, amqp_Dial k = inr (AmqpError e)) ->
  exists w', ReDial amqp_Dial fuel w = Running w' /\
             (dialed w <= dialed w')%nat /\ connection w' = connection w.
Proof.
  induction fuel as [| fuel IH]; intros w Hdown.
  - exists w. repeat split. lia.
  - rewrite ReDial_turn.
    set (w1 := set_effects (effects w ++ [EvLog "Reconnecting to RabbitMQ"]) w).
    destruct (dial_fails amqp_Dial w1 Hdown) as (err & w2 & Hd & Hle & Hc).
    rewrite Hd.
    match goal with |- context [ReDial amqp_Dial fuel ?x] => set (w3 := x) end.
    destruct (IH w3) as (w' & Hr & Hle' & Hc').
    + intros k Hk. apply Hdown. subst w3 w1; cbn in *. lia.
    + exists w'. split; [exact Hr |]. subst w3 w1; cbn in *. split; [lia | congruence].
Qed.

End ReDialProperties.

(** ** Redialling and the context *)

(** C3, as the code has it: a non-nil close notification starts the
    redial loop; the loop calls [dial] again and again, pausing for the
    reconnect interval after each failure, and ends only when a [dial]
    succeeded.  Nothing in it consults the context: run with the context
    cancelled or not, it does the same. *)
Theorem ReDial_stops_only_when_dial_succeeds :
  forall (B : Type) (cb : TwoStepCircuitBreaker B)
         (amqp_Dial : nat -> amqp.Connection + error)
         (fuel : nat) (c : bool) (e : amqp.Error) (rest : list connSelect)
         (w : RabbitMQ B),
    let o := ReDial amqp_Dial fuel w in
    handleConnectionErrors amqp_Dial fuel (RecvNotify (Some e) :: rest) w =
      bind (ReDial amqp_Dial fuel)
           (fun _ => handleConnectionErrors amqp_Dial fuel rest) w /\
    ReDial amqp_Dial fuel (set_cancelled c w) = outcome_map (set_cancelled c) o /\
    exists k,
      sleeps (performed w o) = repeat (ReconnectInterval (config w)) k /\
      match o with
      | Returned _ w' =>
          attempts (performed w o) = S k /\
          exists conn, connection w' = Some conn /\
                       amqp_Dial (pred (dialed w')) = inl conn
      | Running _ => attempts (performed w o) = fuel /\ k = fuel
      | Panicked _ _ | Blocked _ => attempts (performed w o) = S k
      end.
Proof.
  intros B cb amqp_Dial fuel c e rest w o.
  split; [reflexivity |].
  split; [apply ReDial_ignores_ctx |].
  destruct (ReDial_spec amqp_Dial fuel w) as (k & tr & E & _ & Sl & _ & R).
  fold o in E, R. rewrite (performed_app E).
  exists k. split; [exact Sl |].
  destruct o as [[] w' | why w' | w' | w'].
  - destruct R as (Ra & _ & conn & Hc & Hd & _). split; [exact Ra |].
    exists conn. split; assumption.
  - apply R.
  - apply R.
  - destruct R as (Ra & Rk). split; congruence.
Qed.

(** C3 as stated fails: the client has been closed, so its context is
    cancelled; a close notification arrives while the broker stays away.
    The handler then never gets back to its [select], whatever time it is
    given, although [ctx.Done()] is the next thing it would pick. *)
Lemma redial_outlives_cancellation :
  cancelled Scenario.closed = true /\
  ~ exists fuel w',
      handleConnectionErrors Scenario.broker_up_once fuel
        [RecvNotify (Some Scenario.forced_close); ConnCtxDone] Scenario.closed
      = Returned tt w'.
Proof.
  split; [reflexivity |].
  intros (fuel & w' & Hret).
  cbn [handleConnectionErrors] in Hret. unfold bind in Hret.
  destruct (ReDial_keeps_running Scenario.broker_up_once fuel Scenario.closed)
    as (w'' & Hrun & _).
  - intros k Hk. change (dialed Scenario.closed) with 1%nat in Hk.
    destruct k as [| k]; [lia |]. exists Scenario.forced_close. reflexivity.
  - rewrite Hrun in Hret. discriminate.
Qed.

(** A run: the broker comes back at the third attempt, so the loop
    returns after three calls of [dial] and two pauses. *)
Example ReDial_third_attempt :
  let o := ReDial Scenario.broker_back 5 Scenario.fresh in
  returned o = true /\
  attempts (performed Scenario.fresh o) = 3%nat /\
  sleeps (performed Scenario.fresh o) = [2 * Scenario.second; 2 * Scenario.second] /\
  connection (final o) = Some (amqp.mkConnection 2).
Proof.
  cbv zeta. repeat split; vm_compute; reflexivity.
Qed.

(** ** Construction *)



(** ** Close notifications *)

Section NotificationProperties.
Context {B : Type} `{TwoStepCircuitBreaker B}.
Variable amqp_Dial : nat -> amqp.Connection + error.

Lemma handleConnectionErrors_skips_nil (fuel : nat) (picks : list connSelect) :
  forall w : RabbitMQ B,
    handleConnectionErrors amqp_Dial fuel picks w =
    handleConnectionErrors amqp_Dial fuel
      (filter (fun p => negb (nil_notification p)) picks) w.
Proof.
  induction picks as [| [[e |] |] rest IH]; intros w; cbn; try reflexivity.
  - unfold bind. destruct (ReDial amqp_Dial fuel w); try reflexivity. apply IH.
  - apply IH.
Qed.

Lemma handleConnectionErrors_only_nil (fuel : nat) (picks : list connSelect) :
  forall w : RabbitMQ B,
    forallb nil_notification picks = true ->
    handleConnectionErrors amqp_Dial fuel picks w = Blocked w.
Proof.
  induction picks as [| [[e |] |] rest IH]; intros w Hnil; cbn in *;
    try discriminate; [reflexivity | now apply IH].
Qed.

Lemma handleConnectionErrors_trigger (fuel : nat) (picks : list connSelect) :
  forall w : RabbitMQ B,
    final (handleConnectionErrors amqp_Dial fuel picks w) <> w ->
    exists e, In (RecvNotify (Some e)) picks.
Proof.
  induction picks as [| [[e |] |] rest IH]; intros w Hmoved; cbn in *.
  - now elim Hmoved.
  - exists e. now left.
  - destruct (IH w Hmoved) as [e He]. exists e. now right.
  - now elim Hmoved.
Qed.

Lemma ErrGroup_handleConnectionErrors_skips_nil (fuel : nat) (picks : list connSelect) :
  forall w : RabbitMQ B,
    ErrGroup.handleConnectionErrors amqp_Dial fuel picks w =
    ErrGroup.handleConnectionErrors amqp_Dial fuel
      (filter (fun p => negb (nil_notification p)) picks) w.
Proof.
  induction picks as [| [[e |] |] rest IH]; intros w; cbn; try reflexivity.
  - unfold bind. destruct (ErrGroup.redial amqp_Dial fuel w); try reflexivity. apply IH.
  - apply IH.
Qed.

Lemma ErrGroup_handleConnectionErrors_only_nil (fuel : nat) (picks : list connSelect) :
  forall w : RabbitMQ B,
    forallb nil_notification picks = true ->
    ErrGroup.handleConnectionErrors amqp_Dial fuel picks w = Blocked w.
Proof.
  induction picks as [| [[e |] |] rest IH]; intros w Hnil; cbn in *;
    try discriminate; [reflexivity | now apply IH].
Qed.

End NotificationProperties.

(** C10: a nil value taken from the close-notification channel changes
    nothing and starts no redial: the handler behaves as if the nil
    values were not there, it is back waiting in its [select] with the
    client untouched when it has seen nothing but nil values, and
    whenever a run of the handler did anything at all, a non-nil
    notification was among its picks.  Both variants agree. *)
Theorem nil_notification_does_not_redial :
  forall (B : Type) (cb : TwoStepCircuitBreaker B)
         (amqp_Dial : nat -> amqp.Connection + error)
         (fuel : nat) (picks : list connSelect) (w : RabbitMQ B),
    handleConnectionErrors amqp_Dial fuel (RecvNotify None :: picks) w =
      handleConnectionErrors amqp_Dial fuel picks w /\
    handleConnectionErrors amqp_Dial fuel picks w =
      handleConnectionErrors amqp_Dial fuel
        (filter (fun p => negb (nil_notification p)) picks) w /\
    (forallb nil_notification picks = true ->
     handleConnectionErrors amqp_Dial fuel picks w = Blocked w) /\
    (final (handleConnectionErrors amqp_Dial fuel picks w) <> w ->
     exists e, In (RecvNotify (Some e)) picks) /\
    ErrGroup.handleConnectionErrors amqp_Dial fuel picks w =
      ErrGroup.handleConnectionErrors amqp_Dial fuel
        (filter (fun p => negb (nil_notification p)) picks) w /\
    (forallb nil_notification picks = true ->
     ErrGroup.handleConnectionErrors amqp_Dial fuel picks w = Blocked w).
Proof.
  intros B cb amqp_Dial fuel picks w.
  split; [reflexivity |].
  split; [apply handleConnectionErrors_skips_nil |].
  split; [apply handleConnectionErrors_only_nil |].
  split; [apply handleConnectionErrors_trigger |].
  split; [apply ErrGroup_handleConnectionErrors_skips_nil |].
  apply ErrGroup_handleConnectionErrors_only_nil.
Qed.

(** The theorem on three nil values in a row: the handler is waiting
    again and the client is as it was. *)
Lemma three_nil_notifications :
  handleConnectionErrors Scenario.broker_back 5
    [RecvNotify None; RecvNotify None; RecvNotify None] Scenario.connected
  = Blocked Scenario.connected.
Proof.
  destruct (nil_notification_does_not_redial gobreaker.two_step Scenario.broker_back 5
              [RecvNotify None; RecvNotify None; RecvNotify None] Scenario.connected)
    as (_ & _ & Hnil & _).
  apply Hnil. reflexivity.
Defined.

(** A run: three nil values, then a real notification; the broker is back
    at the second attempt.  Only the last pick makes the handler dial. *)
Example three_nils_then_a_close :
  let picks := [RecvNotify None; RecvNotify None; RecvNotify None] in
  handleConnectionErrors Scenario.broker_back 5 picks Scenario.connected
    = Blocked Scenario.connected /\
  attempts (performed Scenario.connected
              (handleConnectionErrors Scenario.broker_back 5
                 (picks ++ [RecvNotify (Some Scenario.forced_close)])
                 Scenario.connected)) = 2%nat.
Proof.
  cbv zeta. split.
  - apply handleConnectionErrors_only_nil. reflexivity.
  - vm_compute. reflexivity.
Qed.

(** ** What [dial] tells the breaker *)

Section DialReports.
Context {B : Type} `{TwoStepCircuitBreaker B}.
Variable amqp_Dial : nat -> amqp.Connection + error.

(** A failed [amqp.Dial] under an admitted call: a channel-level error is
    reported as a success; a connection-level error is reported as a
    failure and then, by the statement that follows the [if], as a
    success as well. *)
Lemma dial_reports_on_failure (w : RabbitMQ B) (b : B) (t : ticket) (e : amqp.Error) :
  Allow (now w) (breaker w) = (b, inl t) ->
  amqp_Dial (dialed w) = inr (AmqpError e) ->
  exists w',
    dial amqp_Dial w = Returned (Some (AmqpError e)) w' /\
    reports (performed w (dial amqp_Dial w)) =
      (if isConnectionError e then [false; true] else [true]) /\
    breaker w' =
      (if isConnectionError e
       then report t (now w) true (report t (now w) false b)
       else report t (now w) true b).
Proof.
  intros HA HD.
  destruct (dial_spec amqp_Dial w) as (tr & E & _).
  rewrite (performed_app E). revert E.
  unfold dial; unfold_steps; cbn. rewrite HA; cbn. rewrite HD; cbn.
  destruct (isConnectionError e); cbn; repeat rewrite <- app_assoc; cbn [app];
    intros E; apply app_inv_head in E; subst tr;
    eexists; repeat split.
Qed.

End DialReports.

(** *** The gobreaker breaker while closed *)

Section BreakerClosed.
Import gobreaker.

(** Looking at the clock leaves a closed breaker closed: either nothing
    changes or a new generation starts with cleared counts. *)
Lemma currentState_closed (t : Z) (cb : CircuitBreaker) :
  state cb = StateClosed ->
  state (currentState t cb) = StateClosed /\
  (currentState t cb = cb \/
   (ConsecutiveFailures (counts (currentState t cb)) = 0 /\
    generation (currentState t cb) = generation cb + 1)).
Proof.
  intros Hst. unfold currentState. rewrite Hst.
  destruct (negb (expiry_IsZero (expiry cb)) && expiry_Before (expiry cb) t).
  - split; [exact Hst | right; split; reflexivity].
  - split; [exact Hst | left; reflexivity].
Qed.

Lemma beforeRequest_closed (t : Z) (cb : CircuitBreaker) :
  closed_clean cb ->
  exists cb1, beforeRequest t cb = (cb1, inl (generation cb1)) /\ closed_clean cb1.
Proof.
  intros [Hst Hcf].
  destruct (currentState_closed t cb Hst) as [Hst' Hcases].
  unfold beforeRequest. rewrite Hst'.
  exists (with_counts (counts_onRequest (counts (currentState t cb))) (currentState t cb)).
  split; [reflexivity |]. split; [exact Hst' |].
  cbn. destruct Hcases as [Heq | [Hcf' _]]; [rewrite Heq; exact Hcf | exact Hcf'].
Qed.

(** A failure reported to a closed, clean breaker leaves it closed, and
    counted only if the generation is still the caller's. *)
Lemma afterRequest_failure_closed (g t : Z) (cb : CircuitBreaker) :
  closed_clean cb ->
  state (afterRequest g t false cb) = StateClosed /\
  (ConsecutiveFailures (counts (afterRequest g t false cb)) = 0 \/
   generation (afterRequest g t false cb) = g).
Proof.
  intros [Hst Hcf].
  destruct (currentState_closed t cb Hst) as [Hst' Hcases].
  assert (Hcf' : ConsecutiveFailures (counts (currentState t cb)) = 0)
    by (destruct Hcases as [Heq | [Hc _]]; [rewrite Heq; exact Hcf | exact Hc]).
  unfold afterRequest.
  destruct (generation (currentState t cb) =? g) eqn:Hgen; cbn [negb].
  - apply Z.eqb_eq in Hgen. unfold onFailure. rewrite Hst'.
    cbn. unfold defaultReadyToTrip. cbn. rewrite Hcf'. cbn.
    split; [exact Hst' | right; exact Hgen].
  - split; [exact Hst' | left; exact Hcf'].
Qed.

(** A success reported next clears whatever that failure had counted. *)
Lemma afterRequest_success_closed (g t : Z) (cb : CircuitBreaker) :
  state cb = StateClosed ->
  ConsecutiveFailures (counts cb) = 0 \/ generation cb = g ->
  closed_clean (afterRequest g t true cb).
Proof.
  intros Hst Hcf.
  destruct (currentState_closed t cb Hst) as [Hst' Hcases].
  unfold afterRequest.
  destruct (generation (currentState t cb) =? g) eqn:Hgen; cbn [negb].
  - unfold onSuccess. rewrite Hst'. split; [exact Hst' | reflexivity].
  - split; [exact Hst' |].
    destruct Hcases as [Heq | [Hc _]]; [| exact Hc].
    rewrite Heq in *. apply Z.eqb_neq in Hgen.
    destruct Hcf as [Hc | Hg]; [exact Hc | contradiction].
Qed.

(** The breaker of the client, closed and clean, admits a call, and is
    closed and clean again once that call was reported failed and then
    succeeded, at whatever times. *)
Lemma gobreaker_failure_then_success (t1 t2 t3 : Z) (cb : CircuitBreaker) :
  closed_clean cb ->
  exists cb1 g,
    beforeRequest t1 cb = (cb1, inl g) /\
    closed_clean (afterRequest g t3 true (afterRequest g t2 false cb1)).
Proof.
  intros Hclean.
  destruct (beforeRequest_closed t1 Hclean) as (cb1 & Hb & Hclean1).
  exists cb1, (generation cb1). split; [exact Hb |].
  destruct (afterRequest_failure_closed (generation cb1) t2 Hclean1) as [Hst2 Hcf2].
  apply afterRequest_success_closed; assumption.
Qed.

End BreakerClosed.

Section ForcedClose.
Import gobreaker.

(** One [dial] against a broker that forces the connection closed. *)
Lemma dial_forced_close (w : RabbitMQ CircuitBreaker) :
  closed_clean (breaker w) ->
  exists w',
    dial Scenario.broker_down w = Returned (Some (AmqpError Scenario.forced_close)) w' /\
    closed_clean (breaker w') /\
    effects w' = effects w ++ [EvAllow true; EvDial false; EvReport false; EvReport true] /\
    config w' = config w.
Proof.
  intros Hclean.
  destruct (gobreaker_failure_then_success (now w) (now w) (now w) Hclean)
    as (cb1 & g & Hb & Hc).
  unfold dial; unfold_steps; cbn.
  change (Allow (now w) (breaker w)) with (beforeRequest (now w) (breaker w)).
  rewrite Hb; cbn. eexists. split; [reflexivity |]. cbn.
  split; [exact Hc |]. repeat rewrite <- app_assoc. split; reflexivity.
Qed.

Lemma ReDial_forced_close (n : nat) : forall w : RabbitMQ CircuitBreaker,
  closed_clean (breaker w) ->
  exists w',
    ReDial Scenario.broker_down n w = Running w' /\
    closed_clean (breaker w') /\
    reports (effects w') = reports (effects w) ++ List.concat (repeat [false; true] n) /\
    attempts (effects w') = (attempts (effects w) + n)%nat.
Proof.
  induction n as [| n IH]; intros w Hclean.
  - exists w. cbn. rewrite app_nil_r, Nat.add_0_r.
    split; [reflexivity |]. split; [exact Hclean |]. split; reflexivity.
  - rewrite ReDial_turn.
    set (w1 := set_effects (effects w ++ [EvLog "Reconnecting to RabbitMQ"]) w).
    destruct (dial_forced_close w1 Hclean) as (w2 & Hd & Hc2 & E2 & C2).
    rewrite Hd.
    match goal with |- context [ReDial _ n ?x] => set (w3 := x) end.
    destruct (IH w3 Hc2) as (w' & Hr & Hc' & Rp & At).
    exists w'. split; [exact Hr |]. split; [exact Hc' |].
    assert (E3 : effects w3 =
                 effects w ++ [EvLog "Reconnecting to RabbitMQ"; EvAllow true;
                               EvDial false; EvReport false; EvReport true;
                               EvLog "Failed to connect to RabbitMQ";
                               EvSleep (ReconnectInterval (config w))]).
    { subst w3; cbn. rewrite E2, C2. subst w1; cbn.
      repeat rewrite <- app_assoc. reflexivity. }
    rewrite Rp, At, E3, reports_app, attempts_app. cbn.
    rewrite <- app_assoc. split; [reflexivity | lia].
Qed.

End ForcedClose.

(** C1 at the failing input: the broker forces every connection closed.
    Each [dial] reports its call failed and then succeeded, so the
    failures never add up: after any number of attempts the breaker is
    still closed. *)
Theorem forced_close_dials_never_trip_breaker :
  forall n : nat,
    let w := final (ReDial Scenario.broker_down n Scenario.fresh) in
    attempts (effects w) = n /\
    reports (effects w) = List.concat (repeat [false; true] n) /\
    gobreaker.state (breaker w) = gobreaker.StateClosed.
Proof.
  intros n w.
  destruct (@ReDial_forced_close n Scenario.fresh) as (w' & Hr & [Hst _] & Rp & At).
  - split; reflexivity.
  - subst w. rewrite Hr. cbn [final].
    split; [exact At |]. split; [exact Rp | exact Hst].
Qed.

(** The other half of C1 holds: a channel-level failure of [amqp.Dial]
    is reported as a success only. *)
Example dial_not_found_reports_success :
  reports (performed Scenario.fresh
             (dial (fun _ => inr (AmqpError Scenario.not_found)) Scenario.fresh))
  = [true].
Proof.
  vm_compute. reflexivity.
Qed.

(** ** The channel arbiter *)

Arguments slot_served : simpl never.

Lemma slot_served_app req d1 d2 :
  slot_served req (d1 ++ d2) = slot_served req d1 || slot_served req d2.
Proof. unfold slot_served. apply existsb_app. Qed.

Lemma slot_served_self req (c : option amqp.Channel) : slot_served req [(req, c)] = true.
Proof. unfold slot_served. cbn. rewrite Nat.eqb_refl. reflexivity. Qed.

Section ArbiterProperties.
Context {B : Type} `{TwoStepCircuitBreaker B}.
Variable Connection_Channel : amqp.Connection -> nat -> amqp.Channel + error.

(** X1: in the worker-pool variant a request refused by the breaker is
    answered with nil once, and the worker returns without reading the
    connection or opening a channel. *)
Lemma handleChannelRead_refused (req : nat) (w : RabbitMQ B) (b : B) (err : error) :
  Allow (now w) (breaker w) = (b, inr err) ->
  slot_served req (delivered w) = false ->
  exists w',
    handleChannelRead Connection_Channel req w = Returned tt w' /\
    delivered w' = delivered w ++ [(req, None)] /\
    opened w' = opened w /\
    performed w (handleChannelRead Connection_Channel req w)
      = [EvAllow false; EvReply req None].
Proof.
  intros HA Hslot.
  unfold performed, handleChannelRead; unfold_steps; cbn.
  rewrite HA; cbn. rewrite Hslot; cbn.
  eexists. split; [reflexivity |]. cbn. repeat split.
  rewrite <- app_assoc, skipn_app, skipn_all, Nat.sub_diag. reflexivity.
Qed.

(** The same request in the errgroup variant: nil goes to the requester,
    and the loop body goes on to open a channel all the same.  It then
    never gets back to its [select]: a failed open sends on the slot
    again, where nobody listens any more, and a successful one calls the
    nil callback. *)
Lemma ErrGroup_serve_refused (req : nat) (w : RabbitMQ B) (b : B) (err : error)
      (conn : amqp.Connection) :
  Allow (now w) (breaker w) = (b, inr err) ->
  connection w = Some conn ->
  slot_served req (delivered w) = false ->
  let o := ErrGroup.serve Connection_Channel req w in
  delivered (final o) = delivered w ++ [(req, None)] /\
  opened (final o) = S (opened w) /\
  count is_channel_open (performed w o) = 1%nat /\
  returned o = false.
Proof.
  intros HA Hconn Hslot o. subst o.
  unfold performed, ErrGroup.serve; unfold_steps; cbn.
  rewrite HA; cbn. rewrite Hslot; cbn. rewrite Hconn; cbn.
  destruct (Connection_Channel conn (opened w)) as [ch | e]; cbn.
  - repeat rewrite <- app_assoc.
    rewrite skipn_app, skipn_all, Nat.sub_diag. repeat split.
  - rewrite slot_served_app, Hslot, slot_served_self; cbn.
    repeat rewrite <- app_assoc.
    rewrite skipn_app, skipn_all, Nat.sub_diag. repeat split.
Qed.

End ArbiterProperties.

(** C2 at the failing input, in the errgroup variant: after six failed
    channel requests the breaker is open; the seventh request is refused
    by it, gets its nil, and a channel is opened on the connection
    nevertheless. *)
Theorem ErrGroup_opens_channel_after_refusal :
  forall (Connection_Channel : amqp.Connection -> nat -> amqp.Channel + error)
         (req : nat),
    (6 <= req)%nat ->
    let o := ErrGroup.serve Connection_Channel req Scenario.tripped in
    gobreaker.state (breaker Scenario.tripped) = gobreaker.StateOpen /\
    delivered (final o) = delivered Scenario.tripped ++ [(req, None)] /\
    opened (final o) = S (opened Scenario.tripped) /\
    count is_channel_open (performed Scenario.tripped o) = 1%nat /\
    returned o = false.
Proof.
  intros CC req Hreq o.
  split; [vm_compute; reflexivity |].
  apply (ErrGroup_serve_refused CC req Scenario.tripped
           (b := breaker Scenario.tripped) (err := gobreaker.ErrOpenState)
           (conn := amqp.mkConnection 0)).
  - vm_compute. reflexivity.
  - vm_compute. reflexivity.
  - assert (Hd : delivered Scenario.tripped
                 = map (fun k => (k, @None amqp.Channel)) (seq 0 6))
      by (vm_compute; reflexivity).
    rewrite Hd. unfold slot_served. cbn.
    do 6 (destruct req as [| req]; [lia |]). reflexivity.
Qed.

(** The theorem at the seventh request of the scenario. *)
Lemma ErrGroup_seventh_request :
  let o := ErrGroup.serve Scenario.no_channel 6 Scenario.tripped in
  gobreaker.state (breaker Scenario.tripped) = gobreaker.StateOpen /\
  delivered (final o) = delivered Scenario.tripped ++ [(6%nat, None)] /\
  opened (final o) = S (opened Scenario.tripped) /\
  count is_channel_open (performed Scenario.tripped o) = 1%nat /\
  returned o = false.
Proof.
  apply (ErrGroup_opens_channel_after_refusal Scenario.no_channel (req := 6)).
  lia.
Defined.

(** The worker-pool variant at the same input keeps the promise. *)
Example worker_pool_seventh_request :
  performed Scenario.tripped
    (handleChannelRead Scenario.no_channel 6 Scenario.tripped)
  = [EvAllow false; EvReply 6 None].
Proof.
  vm_compute. reflexivity.
Qed.

(** ** Acquiring a channel *)



Section ChannelProperties.
Context {B : Type} `{TwoStepCircuitBreaker B}.
Variable Connection_Channel : amqp.Connection -> nat -> amqp.Channel + error.




End ChannelProperties.



(** That run, spelled out: two refusals, two pauses, then the channel. *)
Example channel_third_turn_run :
  let o := channel (serve Scenario.third_channel) 5 Scenario.connected in
  o = Returned (Some (amqp.mkChannel 0 2)) (final o) /\
  caller_view (performed Scenario.connected o) =
    [EvAsk 0; EvReply 0 None; EvSleep (2 * Scenario.second);
     EvAsk 1; EvReply 1 None; EvSleep (2 * Scenario.second);
     EvAsk 2; EvReply 2 (Some (amqp.mkChannel 0 2))].
Proof.
  cbv zeta. split; vm_compute; reflexivity.
Qed.

(** ** The lock around the connection *)






(** ** Publishing without waiting *)

(** C4: [ResilientPublish] always returns at once.  Its only error is
    the capacity error of a full queue, which it leaves as it was; below
    capacity the message of the event joins the end of the queue and nil
    is returned.  Whether a connection is there, what the breaker thinks
    and whether the client was shut down make no difference. *)
Theorem ResilientPublish_fails_only_when_full :
  forall (B : Type) (MessageFromEvent : Event -> Message) (e : Event)
         (w : RabbitMQ B),
    (exists r w',
        ResilientPublish MessageFromEvent e w = Returned r w' /\
        ((r = None /\
          Z.of_nat (List.length (publishQueue w)) < QueueSize (config w) /\
          w' = set_publishQueue (publishQueue w ++ [MessageFromEvent e]) w)
         \/
         (r = Some ErrQueueFull /\
          QueueSize (config w) <= Z.of_nat (List.length (publishQueue w)) /\
          w' = w))) /\
    (forall (conn : option amqp.Connection) (b : B) (c : bool),
        let reach := fun w0 => set_connection conn (set_breaker b (set_cancelled c w0)) in
        ResilientPublish MessageFromEvent e (reach w) =
        outcome_map reach (ResilientPublish MessageFromEvent e w)).
Proof.
  intros B MFE e w. split.
  - unfold ResilientPublish, Enqueue, bind, ret.
    destruct (Z.of_nat (List.length (publishQueue w)) <? QueueSize (config w)) eqn:Hroom.
    + apply Z.ltb_lt in Hroom. do 2 eexists. split; [reflexivity |].
      left. repeat split. exact Hroom.
    + apply Z.ltb_ge in Hroom. do 2 eexists. split; [reflexivity |].
      right. repeat split. exact Hroom.
  - intros conn b c reach. subst reach.
    unfold ResilientPublish, Enqueue, bind, ret. cbn.
    destruct (Z.of_nat (List.length (publishQueue w)) <? QueueSize (config w));
      reflexivity.
Qed.

(** The theorem on a queue of capacity 100 that holds 100 messages: the
    next event is refused and the queue is as it was. *)
Lemma ResilientPublish_on_full_queue :
  ResilientPublish Scenario.toy_MessageFromEvent Scenario.article_created
    Scenario.full_queue
  = Returned (Some ErrQueueFull) Scenario.full_queue.
Proof.
  destruct (ResilientPublish_fails_only_when_full Scenario.toy_MessageFromEvent
              Scenario.article_created Scenario.full_queue)
    as [(r & w' & Hrun & [(_ & Hroom & _) | (Hr & _ & Hw)]) _].
  - vm_compute in Hroom. discriminate.
  - rewrite Hrun, Hr, Hw. reflexivity.
Defined.

(** ** Consuming *)

Section ConsumeProperties.
Variable json_Unmarshal : list Byte.byte -> Event + error.

Lemma decode_loop_app (l1 l2 : list Delivery) :
  decode_loop json_Unmarshal (l1 ++ l2) =
  decode_loop json_Unmarshal l1 ++ decode_loop json_Unmarshal l2.
Proof.
  induction l1 as [| m l1 IH]; cbn; [reflexivity |].
  destruct (json_Unmarshal (DeliveryBody m)); rewrite IH; reflexivity.
Qed.

Lemma events_of_app (l1 l2 : list consumed) :
  events_of (l1 ++ l2) = events_of l1 ++ events_of l2.
Proof.
  induction l1 as [| [e | err] l1 IH]; cbn; rewrite ?IH; reflexivity.
Qed.

Lemma failures_of_app (l1 l2 : list consumed) :
  failures_of (l1 ++ l2) = failures_of l1 ++ failures_of l2.
Proof.
  induction l1 as [| [e | err] l1 IH]; cbn; rewrite ?IH; reflexivity.
Qed.

Lemma decode_loop_decodable (messages : list Delivery) :
  events_of (decode_loop json_Unmarshal messages) = decodable json_Unmarshal messages.
Proof.
  induction messages as [| m rest IH]; cbn; [reflexivity |].
  destruct (json_Unmarshal (DeliveryBody m)); cbn; rewrite IH; reflexivity.
Qed.

Lemma decode_loop_handles_all (messages : list Delivery) :
  List.length (decode_loop json_Unmarshal messages) = List.length messages.
Proof.
  induction messages as [| m rest IH]; cbn; [reflexivity |].
  destruct (json_Unmarshal (DeliveryBody m)); cbn; rewrite IH; reflexivity.
Qed.

End ConsumeProperties.

(** C5: the decode loop takes every message of the stream in turn; the
    events that reach the returned channel are exactly the bodies that
    decode, in the order received; a message that does not decode is
    logged once and dropped, and what comes before and after it is
    produced as if it had not been there. *)
Theorem malformed_message_is_dropped :
  forall (json_Unmarshal : list Byte.byte -> Event + error)
         (pre post : list Delivery) (bad : Delivery) (err : error),
    json_Unmarshal (DeliveryBody bad) = inr err ->
    let run := decode_loop json_Unmarshal (pre ++ bad :: post) in
    List.length run = List.length (pre ++ bad :: post) /\
    events_of run = decodable json_Unmarshal (pre ++ bad :: post) /\
    events_of run =
      events_of (decode_loop json_Unmarshal pre)
        ++ events_of (decode_loop json_Unmarshal post) /\
    failures_of run =
      failures_of (decode_loop json_Unmarshal pre)
        ++ err :: failures_of (decode_loop json_Unmarshal post) /\
    forall (RouteFromEvent : EventType -> string)
           (mq_Consume : string -> string -> list Delivery + error)
           (queue : string) (eventType : EventType),
      mq_Consume queue (RouteFromEvent eventType) = inl (pre ++ bad :: post) ->
      Consume RouteFromEvent json_Unmarshal mq_Consume queue eventType = inl run.
Proof.
  intros U pre post bad err Hbad run. subst run.
  split; [apply decode_loop_handles_all |].
  split; [apply decode_loop_decodable |].
  rewrite decode_loop_app, events_of_app, failures_of_app.
  cbn [decode_loop]. rewrite Hbad. cbn [events_of failures_of].
  repeat split.
  intros RFE mqC queue et Hstream. unfold Consume. rewrite Hstream.
  rewrite decode_loop_app. cbn [decode_loop]. rewrite Hbad. reflexivity.
Qed.

(** The theorem on the stream of the contract's test: a malformed
    message, then a valid one. *)
Lemma malformed_then_valid :
  let stream := [] ++ mkDelivery [] :: [mkDelivery [Byte.x7b; Byte.x7d]] in
  let run := decode_loop Scenario.toy_Unmarshal stream in
  List.length run = List.length stream /\
  events_of run = decodable Scenario.toy_Unmarshal stream /\
  events_of run =
    events_of (decode_loop Scenario.toy_Unmarshal [])
      ++ events_of (decode_loop Scenario.toy_Unmarshal [mkDelivery [Byte.x7b; Byte.x7d]]) /\
  failures_of run =
    failures_of (decode_loop Scenario.toy_Unmarshal [])
      ++ OtherError "unexpected end of JSON input"
      :: failures_of (decode_loop Scenario.toy_Unmarshal [mkDelivery [Byte.x7b; Byte.x7d]]) /\
  forall (RouteFromEvent : EventType -> string)
         (mq_Consume : string -> string -> list Delivery + error)
         (queue : string) (eventType : EventType),
    mq_Consume queue (RouteFromEvent eventType) = inl stream ->
    Consume RouteFromEvent Scenario.toy_Unmarshal mq_Consume queue eventType = inl run.
Proof.
  apply (malformed_message_is_dropped Scenario.toy_Unmarshal []
           [mkDelivery [Byte.x7b; Byte.x7d]] (mkDelivery [])
           (err := OtherError "unexpected end of JSON input")).
  reflexivity.
Defined.

(** That run: only the valid event is produced. *)
Example malformed_then_valid_run :
  events_of (decode_loop Scenario.toy_Unmarshal
               [mkDelivery []; mkDelivery [Byte.x7b; Byte.x7d]])
  = [mkEvent "article" Created [Byte.x7b; Byte.x7d] 0].
Proof.
  rewrite decode_loop_decodable. reflexivity.
Qed.

(** ** The worker-pool arbiter under an open breaker *)

(** The theorem at the seventh request of the scenario, the breaker
    being open. *)
Lemma worker_pool_seventh_request_refused :
  exists w',
    handleChannelRead Scenario.no_channel 6 Scenario.tripped = Returned tt w' /\
    delivered w' = delivered Scenario.tripped ++ [(6%nat, None)] /\
    opened w' = opened Scenario.tripped /\
    performed Scenario.tripped
      (handleChannelRead Scenario.no_channel 6 Scenario.tripped)
      = [EvAllow false; EvReply 6 None].
Proof.
  apply (handleChannelRead_refused Scenario.no_channel 6 Scenario.tripped
           (b := breaker Scenario.tripped) (err := gobreaker.ErrOpenState)).
  - vm_compute. reflexivity.
  - vm_compute. reflexivity.
Defined.

(** ** The type assertion in [dial] *)

(** X2: [dial] asserts that the error of [amqp.Dial] is an [*amqp.Error].
    When it is any other error, the admitted call panics at the
    assertion, before the breaker is told anything. *)
Theorem dial_panics_on_foreign_error :
  forall (B : Type) (cb : TwoStepCircuitBreaker B)
         (amqp_Dial : nat -> amqp.Connection + error)
         (w : RabbitMQ B) (b : B) (t : ticket) (msg : string),
    Allow (now w) (breaker w) = (b, inl t) ->
    amqp_Dial (dialed w) = inr (OtherError msg) ->
    exists why w',
      dial amqp_Dial w = Panicked why w' /\
      performed w (dial amqp_Dial w) = [EvAllow true; EvDial false] /\
      connection w' = connection w.
Proof.
  intros B cb amqp_Dial w b t msg HA HD.
  unfold performed, dial; unfold_steps; cbn.
  rewrite HA; cbn. rewrite HD; cbn.
  do 2 eexists. split; [reflexivity |]. cbn.
  rewrite <- app_assoc, skipn_app, skipn_all, Nat.sub_diag.
  split; reflexivity.
Qed.

(** The theorem at a broker whose port refuses the connection. *)
Lemma dial_panics_on_connection_refused :
  exists why w',
    dial (fun _ => inr (OtherError "dial tcp: connection refused")) Scenario.fresh
      = Panicked why w' /\
    performed Scenario.fresh
      (dial (fun _ => inr (OtherError "dial tcp: connection refused")) Scenario.fresh)
      = [EvAllow true; EvDial false] /\
    connection w' = connection Scenario.fresh.
Proof.
  apply (dial_panics_on_foreign_error gobreaker.two_step
           (fun _ => inr (OtherError "dial tcp: connection refused"))
           Scenario.fresh
           (b := fst (Allow (now Scenario.fresh) (breaker Scenario.fresh)))
           (t := 1) (msg := "dial tcp: connection refused")).
  - vm_compute. reflexivity.
  - reflexivity.
Defined.

(* ===================================================================== *)
(** * Further properties of the client *)
(* ===================================================================== *)

Unset Implicit Arguments.

(** ** The arbiter loop *)

Section ArbiterLoop.
Context {B : Type} `{TwoStepCircuitBreaker B}.
Variable Connection_Channel : amqp.Connection -> nat -> amqp.Channel + error.



End ArbiterLoop.



(** ** What the worker tells the breaker *)

(** X4: a request admitted by the breaker makes the worker call
    [Channel] on the connection exactly once, report the outcome to the
    breaker exactly once (a failure whatever the error is, channel-level
    ones included) and answer the requester once, with the channel or
    with nil. *)
Theorem worker_reports_every_open_failure :
  forall (B : Type) (cb : TwoStepCircuitBreaker B)
         (Connection_Channel : amqp.Connection -> nat -> amqp.Channel + error)
         (req : nat) (w : RabbitMQ B) (b : B) (t : ticket) (conn : amqp.Connection),
    Allow (now w) (breaker w) = (b, inl t) ->
    connection w = Some conn ->
    slot_served req (delivered w) = false ->
    let r := Connection_Channel conn (opened w) in
    let ok := match r with inl _ => true | inr _ => false end in
    exists w',
      handleChannelRead Connection_Channel req w = Returned tt w' /\
      reports (performed w (handleChannelRead Connection_Channel req w)) = [ok] /\
      breaker w' = report t (now w) ok b /\
      delivered w' =
        delivered w ++ [(req, match r with inl ch => Some ch | inr _ => None end)] /\
      opened w' = S (opened w) /\
      count is_channel_open (performed w (handleChannelRead Connection_Channel req w))
        = 1%nat.
Proof.
  intros B cb CC req w b t conn HA Hconn Hslot r ok. subst r ok.
  unfold performed, handleChannelRead; unfold_steps; cbn.
  rewrite HA; cbn. rewrite Hconn; cbn.
  destruct (CC conn (opened w)) as [ch | e]; cbn; rewrite Hslot; cbn;
    eexists; (split; [reflexivity |]); cbn;
    repeat rewrite <- app_assoc;
    rewrite skipn_app, skipn_all, Nat.sub_diag; cbn;
    repeat split.
Qed.

(** The theorem at a channel-level error: the queue asked for is not
    there. *)
Lemma worker_reports_not_found :
  let CC := fun (_ : amqp.Connection) (_ : nat) =>
              @inr amqp.Channel error (AmqpError Scenario.not_found) in
  let r := CC (amqp.mkConnection 0) (opened Scenario.connected) in
  let ok := match r with inl _ => true | inr _ => false end in
  exists w',
    handleChannelRead CC 0 Scenario.connected = Returned tt w' /\
    reports (performed Scenario.connected (handleChannelRead CC 0 Scenario.connected))
      = [ok] /\
    breaker w' =
      @report gobreaker.CircuitBreaker gobreaker.two_step 1
        (now Scenario.connected) ok
        (fst (gobreaker.beforeRequest (now Scenario.connected)
                (breaker Scenario.connected))) /\
    delivered w' =
      delivered Scenario.connected
        ++ [(0%nat, match r with inl ch => Some ch | inr _ => None end)] /\
    opened w' = S (opened Scenario.connected) /\
    count is_channel_open
      (performed Scenario.connected (handleChannelRead CC 0 Scenario.connected))
      = 1%nat.
Proof.
  intros CC.
  refine (worker_reports_every_open_failure _ gobreaker.two_step CC 0%nat
            Scenario.connected
            (fst (gobreaker.beforeRequest (now Scenario.connected)
                    (breaker Scenario.connected)))
            1 (amqp.mkConnection 0) _ _ _).
  - vm_compute. reflexivity.
  - vm_compute. reflexivity.
  - vm_compute. reflexivity.
Defined.

(** *** Counting failures *)

Section BreakerCounting.
Import gobreaker.




End BreakerCounting.

(** ** Six failures in a row *)

Section TrippingTheBreaker.
Import gobreaker.
Variable Connection_Channel : amqp.Connection -> nat -> amqp.Channel + error.






End TrippingTheBreaker.



(** ** While the breaker is open *)

Section OpenBreaker.
Import gobreaker.




End OpenBreaker.







(** ** The two redial loops *)

Section TwoRedialLoops.
Context {B : Type} `{TwoStepCircuitBreaker B}.
Variable amqp_Dial : nat -> amqp.Connection + error.

Lemma without_logs_app (l1 l2 : list event) :
  without_logs (l1 ++ l2) = without_logs l1 ++ without_logs l2.
Proof. unfold without_logs. apply filter_app. Qed.

(** [dial] adds its steps to whatever is on record and looks at nothing
    of it. *)
Lemma dial_on_record (w : RabbitMQ B) (l : list event) :
  dial amqp_Dial (set_effects l w) =
  outcome_map (fun w' => set_effects (l ++ effects w') w')
              (dial amqp_Dial (set_effects [] w)).
Proof.
  unfold dial; unfold_steps; cbn.
  destruct (Allow (now w) (breaker w)) as [b [t | err]]; cbn;
    [ destruct (amqp_Dial (dialed w)) as [conn | [e | msg]]; cbn;
      [ destruct (mutex w); cbn
      | destruct (isConnectionError e); cbn
      | ]
    | ];
    repeat rewrite <- app_assoc; reflexivity.
Qed.

(** One turn of the loop of the errgroup variant. *)
Lemma ErrGroup_redial_turn (fuel : nat) (w : RabbitMQ B) :
  ErrGroup.redial amqp_Dial (S fuel) w =
  match dial amqp_Dial w with
  | Returned None w' => Returned tt w'
  | Returned (Some _) w' =>
      ErrGroup.redial amqp_Dial fuel
        (set_effects ((effects w' ++ [EvLog "Reconnecting to RabbitMQ"])
                        ++ [EvSleep (ReconnectInterval (config w'))])
           (set_now (now w' + ReconnectInterval (config w'))
              (set_effects (effects w' ++ [EvLog "Reconnecting to RabbitMQ"]) w')))
  | Panicked why w' => Panicked why w'
  | Blocked w' => Blocked w'
  | Running w' => Running w'
  end.
Proof.
  cbn [ErrGroup.redial]. unfold bind at 1.
  destruct (dial amqp_Dial w) as [[err|] w' | | |]; reflexivity.
Qed.

(** From worlds that differ in the record only, the two loops end the
    same way in worlds that differ in the record only, and their records
    grow by the same steps but for the log lines. *)
Lemma redial_loops_agree (fuel : nat) :
  forall (w : RabbitMQ B) (l1 l2 : list event),
    outcome_map (set_effects []) (ReDial amqp_Dial fuel (set_effects l1 w)) =
    outcome_map (set_effects []) (ErrGroup.redial amqp_Dial fuel (set_effects l2 w)) /\
    exists t1 t2,
      effects (final (ReDial amqp_Dial fuel (set_effects l1 w))) = l1 ++ t1 /\
      effects (final (ErrGroup.redial amqp_Dial fuel (set_effects l2 w))) = l2 ++ t2 /\
      without_logs t1 = without_logs t2.
Proof.
  induction fuel as [| fuel IH]; intros w l1 l2.
  - split; [reflexivity |]. exists [], []. cbn. rewrite !app_nil_r. repeat split.
  - rewrite ReDial_turn, ErrGroup_redial_turn.
    change (set_effects (effects (set_effects l1 w) ++ [EvLog "Reconnecting to RabbitMQ"])
              (set_effects l1 w))
      with (set_effects (l1 ++ [EvLog "Reconnecting to RabbitMQ"]) w).
    rewrite (dial_on_record w (l1 ++ [EvLog "Reconnecting to RabbitMQ"])).
    rewrite (dial_on_record w l2).
    destruct (dial amqp_Dial (set_effects [] w)) as [[err|] wd | why wd | wd | wd];
      cbn [outcome_map final].
    + (* the attempt failed: both loops pause and go on *)
      match goal with
      | |- context [ReDial amqp_Dial fuel ?x] => set (w1 := x)
      end.
      match goal with
      | |- context [ErrGroup.redial amqp_Dial fuel ?x] => set (w2 := x)
      end.
      set (w0 := set_now (now wd + ReconnectInterval (config wd)) wd).
      set (a := [EvLog "Failed to connect to RabbitMQ";
                 EvSleep (ReconnectInterval (config wd))]).
      set (b := [EvLog "Reconnecting to RabbitMQ";
                 EvSleep (ReconnectInterval (config wd))]).
      assert (E1 : w1 = set_effects
                         (l1 ++ ([EvLog "Reconnecting to RabbitMQ"] ++ effects wd) ++ a) w0).
      { subst w1 w0 a. cbn. repeat rewrite <- app_assoc. reflexivity. }
      assert (E2 : w2 = set_effects (l2 ++ effects wd ++ b) w0).
      { subst w2 w0 b. cbn. repeat rewrite <- app_assoc. reflexivity. }
      rewrite E1, E2.
      destruct (IH w0 (l1 ++ ([EvLog "Reconnecting to RabbitMQ"] ++ effects wd) ++ a)
                   (l2 ++ effects wd ++ b))
        as (Hsame & t1 & t2 & Ht1 & Ht2 & Hlogs).
      split; [exact Hsame |].
      exists ((([EvLog "Reconnecting to RabbitMQ"] ++ effects wd) ++ a) ++ t1),
             ((effects wd ++ b) ++ t2).
      split; [rewrite Ht1; repeat rewrite <- app_assoc; reflexivity |].
      split; [rewrite Ht2; repeat rewrite <- app_assoc; reflexivity |].
      rewrite !without_logs_app, Hlogs. subst a b. cbn. reflexivity.
    + split; [reflexivity |].
      exists ([EvLog "Reconnecting to RabbitMQ"] ++ effects wd), (effects wd).
      cbn. rewrite <- app_assoc. repeat split.
    + split; [reflexivity |].
      exists ([EvLog "Reconnecting to RabbitMQ"] ++ effects wd), (effects wd).
      cbn. rewrite <- app_assoc. repeat split.
    + split; [reflexivity |].
      exists ([EvLog "Reconnecting to RabbitMQ"] ++ effects wd), (effects wd).
      cbn. rewrite <- app_assoc. repeat split.
    + split; [reflexivity |].
      exists ([EvLog "Reconnecting to RabbitMQ"] ++ effects wd), (effects wd).
      cbn. rewrite <- app_assoc. repeat split.
Qed.

End TwoRedialLoops.

Lemma set_effects_same {B : Type} (w : RabbitMQ B) : set_effects (effects w) w = w.
Proof. destruct w; reflexivity. Qed.

(** X8: the inner redial loop of the errgroup variant and [ReDial] of the
    worker-pool variant are the same loop but for their log lines: from
    the same state they end the same way, leave the same client, and
    make the same breaker requests, dials and pauses in the same order.
    So the older loop, too, stops only when a [dial] succeeds and never
    consults the context. *)
Theorem redial_loops_differ_in_logs_only :
  forall (B : Type) (cb : TwoStepCircuitBreaker B)
         (amqp_Dial : nat -> amqp.Connection + error)
         (fuel : nat) (w : RabbitMQ B),
    let new := ReDial amqp_Dial fuel w in
    let old := ErrGroup.redial amqp_Dial fuel w in
    outcome_map (set_effects []) new = outcome_map (set_effects []) old /\
    without_logs (performed w new) = without_logs (performed w old).
Proof.
  intros B cb amqp_Dial fuel w new old.
  destruct (redial_loops_agree amqp_Dial fuel w (effects w) (effects w))
    as (Hsame & t1 & t2 & Ht1 & Ht2 & Hlogs).
  rewrite set_effects_same in *.
  fold new in Hsame, Ht1. fold old in Hsame, Ht2.
  rewrite (performed_app Ht1), (performed_app Ht2).
  split; assumption.
Qed.

(** ** An arbiter without permits *)



(** * The read model *)

Section ReadModel.

Lemma addArticlesPrefix_inj (a b : string) :
  query.addArticlesPrefix a = query.addArticlesPrefix b -> a = b.
Proof. unfold query.addArticlesPrefix. cbn. intros E. injection E. auto. Qed.

Lemma addArticlesPrefix_not_index (a : string) :
  query.addArticlesPrefix a <> query.articlesPrefix.
Proof. unfold query.addArticlesPrefix. cbn. discriminate. Qed.

Lemma addArticlesPrefix_longer (a : string) :
  query.addArticlesPrefix a <> a.
Proof.
  intros E. apply (f_equal String.length) in E.
  unfold query.addArticlesPrefix in E. cbn in E. lia.
Qed.

Lemma stored_Get (a : entity.Article) (db : query.DB) :
  query.stored a db -> query.Get (entity.Id a) db = (a, None).
Proof.
  intros (Ho & h & Hk & Hi & Hu & Ht & Hb).
  unfold query.Get, redis.HGetAll. rewrite Ho, Hk.
  unfold redis.Scan. cbn. rewrite Hi, Hu, Ht, Hb.
  destruct a; reflexivity.
Qed.

Lemma store_other (key k : string) (v : option redis.value) (c : redis.Client) :
  k <> key -> redis.keys (redis.store key v c) k = redis.keys c k.
Proof.
  intros Hn. cbn. destruct (String.eqb_spec k key); [contradiction | reflexivity].
Qed.

Lemma store_same (key : string) (v : option redis.value) (c : redis.Client) :
  redis.keys (redis.store key v c) key = v.
Proof. cbn. rewrite String.eqb_refl. reflexivity. Qed.

(** A command leaves the client open or closed as it was. *)
Lemma HSet_closed key values c : redis.closed (fst (redis.HSet key values c)) = redis.closed c.
Proof.
  unfold redis.HSet. destruct (redis.closed c) eqn:E; [exact E |].
  destruct (redis.keys c key) as [[h | s |] |]; cbn; exact E.
Qed.

Lemma SAdd_closed key member c : redis.closed (fst (redis.SAdd key member c)) = redis.closed c.
Proof.
  unfold redis.SAdd. destruct (redis.closed c) eqn:E; [exact E |].
  destruct (redis.keys c key) as [[h | s |] |]; cbn; exact E.
Qed.

(** A command on one key leaves the others alone. *)
Lemma HSet_other key values c k :
  k <> key -> redis.keys (fst (redis.HSet key values c)) k = redis.keys c k.
Proof.
  intros Hn. unfold redis.HSet. destruct (redis.closed c); [reflexivity |].
  destruct (redis.keys c key) as [[h | s |] |]; cbn [fst];
    try reflexivity; apply store_other; exact Hn.
Qed.

Lemma SAdd_other key member c k :
  k <> key -> redis.keys (fst (redis.SAdd key member c)) k = redis.keys c k.
Proof.
  intros Hn. unfold redis.SAdd. destruct (redis.closed c); [reflexivity |].
  destruct (redis.keys c key) as [[h | s |] |]; cbn [fst];
    try reflexivity; apply store_other; exact Hn.
Qed.

(** [Create] is its two writes, one after the other. *)
Lemma Create_steps (a : entity.Article) (db : query.DB) :
  query.Create a db =
  (fst (redis.SAdd query.articlesPrefix (entity.Id a)
          (fst (redis.HSet (query.addArticlesPrefix (entity.Id a))
                  [("id", entity.Id a); ("user_id", entity.UserId a);
                   ("title", entity.Title a); ("body", entity.Body a)] db))),
   None).
Proof.
  unfold query.Create, redis.TxPipelined.
  destruct (redis.HSet _ _ db) as [db1 e1]. cbn [fst].
  destruct (redis.SAdd _ _ db1) as [db2 e2]. reflexivity.
Qed.

Lemma Create_closed a db : redis.closed (fst (query.Create a db)) = redis.closed db.
Proof. rewrite Create_steps. cbn [fst]. rewrite SAdd_closed, HSet_closed. reflexivity. Qed.

Lemma Create_other a db k :
  k <> query.addArticlesPrefix (entity.Id a) -> k <> query.articlesPrefix ->
  redis.keys (fst (query.Create a db)) k = redis.keys db k.
Proof.
  intros H1 H2. rewrite Create_steps. cbn [fst].
  rewrite SAdd_other by exact H2. apply HSet_other. exact H1.
Qed.

Lemma Create_stored (a : entity.Article) (db : query.DB) :
  redis.closed db = false ->
  query.hash_or_free (query.addArticlesPrefix (entity.Id a)) db ->
  query.stored a (fst (query.Create a db)).
Proof.
  intros Ho Hk. split; [rewrite Create_closed; exact Ho |].
  rewrite Create_steps. cbn [fst].
  rewrite SAdd_other by apply addArticlesPrefix_not_index.
  unfold redis.HSet. rewrite Ho. unfold query.hash_or_free in Hk.
  destruct (redis.keys db (query.addArticlesPrefix (entity.Id a)))
    as [[h | s |] |] eqn:E; try contradiction; cbn [fst]; rewrite store_same;
    eexists; (split; [reflexivity |]); cbn; repeat split.
Qed.

Lemma spared_stays (a : entity.Article) (op : query.write) (db : query.DB) :
  query.stored a db -> query.spares (entity.Id a) op -> query.stored a (query.call_write op db).
Proof.
  intros (Ho & h & Hk & Hrest) Hs.
  assert (Hc : forall b, entity.Id b <> entity.Id a ->
                         query.stored a (fst (query.Create b db))).
  { intros b Hb. split; [rewrite Create_closed; exact Ho |].
    exists h. split; [| exact Hrest].
    rewrite Create_other; [exact Hk | | apply addArticlesPrefix_not_index].
    intros E. apply Hb. symmetry. apply addArticlesPrefix_inj. exact E. }
  destruct op as [b | b | key]; cbn [query.call_write query.spares] in *.
  - apply Hc, Hs.
  - apply Hc, Hs.
  - unfold query.Delete, redis.Del. rewrite Ho. cbn [fst].
    split; [exact Ho |]. exists h. split; [| exact Hrest].
    rewrite store_other; [exact Hk |]. intros E. apply Hs. symmetry. exact E.
Qed.

Lemma spared_stay (a : entity.Article) (ops : list query.write) :
  forall db, query.stored a db -> Forall (query.spares (entity.Id a)) ops ->
             query.stored a (query.calls ops db).
Proof.
  induction ops as [| op ops IH]; intros db Hst Hall; [exact Hst |].
  inversion Hall as [| ? ? Hop Hops]; subst. cbn [query.calls fold_left].
  apply IH; [apply spared_stays; assumption | exact Hops].
Qed.

End ReadModel.

(** X10: the read model returns what was last written under an id.  After
    [Create] or [Update] of an article on an open client whose key for
    it holds a hash or nothing, [Get] of its id returns the article with
    a nil error, whatever calls follow that write no article of that id
    and delete no key [articles:<id>]; calls of [Delete] with the id
    itself are among those. *)
Theorem Get_returns_last_write :
  forall (db : query.DB) (a : entity.Article) (after : list query.write),
    redis.closed db = false ->
    query.hash_or_free (query.addArticlesPrefix (entity.Id a)) db ->
    Forall (query.spares (entity.Id a)) after ->
    query.Get (entity.Id a) (query.calls (query.CallCreate a :: after) db) = (a, None) /\
    query.Get (entity.Id a) (query.calls (query.CallUpdate a :: after) db) = (a, None).
Proof.
  intros db a after Ho Hk Hall.
  split; apply stored_Get; cbn [query.calls fold_left query.call_write];
    apply spared_stay; try exact Hall; apply Create_stored; assumption.
Qed.

(** Three articles are written and the first is deleted by its id. *)
Lemma Get_after_other_writes :
  let a := Scenario.hello in
  let after := [query.CallCreate (entity.mkArticle "2" "u2" "Bye" "Last post");
                query.CallDelete "1";
                query.CallUpdate (entity.mkArticle "2" "u2" "Bye" "Edited")] in
  query.Get "1" (query.calls (query.CallCreate a :: after) Scenario.empty_redis) = (a, None) /\
  query.Get "1" (query.calls (query.CallUpdate a :: after) Scenario.empty_redis) = (a, None).
Proof.
  apply (Get_returns_last_write Scenario.empty_redis Scenario.hello).
  - reflexivity.
  - exact I.
  - repeat constructor; cbn; discriminate.
Defined.

(** X11: [Delete] removes the key it is handed, not the article of that
    id.  After [Create] of an article, [Delete] of any key succeeds, and
    [Get] of the article's id afterwards returns an empty article exactly
    when the key was [articles:<id>] and the article otherwise (so after
    [Delete] of the id itself the article is still read); the id stays in
    the index set unless the key handed over was the index itself. *)
Theorem Delete_removes_the_key_it_is_given :
  forall (db : query.DB) (a : entity.Article) (key : string),
    redis.closed db = false ->
    query.hash_or_free (query.addArticlesPrefix (entity.Id a)) db ->
    match redis.keys db query.articlesPrefix with
    | None | Some (redis.Members _) => True
    | Some _ => False
    end ->
    let db' := fst (query.Create a db) in
    snd (query.Delete key db') = None /\
    query.Get (entity.Id a) (fst (query.Delete key db')) =
      (if String.eqb key (query.addArticlesPrefix (entity.Id a))
       then query.no_article else a, None) /\
    query.Get (entity.Id a) (fst (query.Delete (entity.Id a) db')) = (a, None) /\
    redis.SIsMember query.articlesPrefix (entity.Id a) (fst (query.Delete key db')) =
      negb (String.eqb key query.articlesPrefix).
Proof.
  intros db a key Ho Hk Hi db'.
  pose proof (Create_stored a db Ho Hk) as Hst. fold db' in Hst.
  assert (Hspared : forall k, k <> query.addArticlesPrefix (entity.Id a) ->
                      query.Get (entity.Id a) (fst (query.Delete k db')) = (a, None)).
  { intros k Hn. apply stored_Get.
    apply (spared_stays a (query.CallDelete k) db' Hst). exact Hn. }
  destruct Hst as (Ho' & h & Hk' & _).
  split; [unfold query.Delete, redis.Del; rewrite Ho'; reflexivity |].
  split; [| split].
  - destruct (String.eqb_spec key (query.addArticlesPrefix (entity.Id a))) as [E | Hn].
    + subst key. unfold query.Get, query.Delete, redis.Del, redis.HGetAll.
      rewrite Ho'. cbn [fst redis.store redis.closed redis.keys].
      rewrite Ho', String.eqb_refl. reflexivity.
    + apply Hspared, Hn.
  - apply Hspared. intros E. symmetry in E. exact (addArticlesPrefix_longer _ E).
  - unfold query.Delete, redis.Del. rewrite Ho'. cbn [fst].
    unfold redis.SIsMember.
    destruct (String.eqb_spec key query.articlesPrefix) as [E | Hn].
    + subst key. rewrite store_same. reflexivity.
    + rewrite store_other by (intros E; apply Hn; symmetry; exact E).
      subst db'. rewrite Create_steps. cbn [fst].
      assert (Ho1 : redis.closed (fst (redis.HSet (query.addArticlesPrefix (entity.Id a))
                  [("id", entity.Id a); ("user_id", entity.UserId a);
                   ("title", entity.Title a); ("body", entity.Body a)] db)) = false)
        by (rewrite HSet_closed; exact Ho).
      assert (Hi1 : redis.keys (fst (redis.HSet (query.addArticlesPrefix (entity.Id a))
                  [("id", entity.Id a); ("user_id", entity.UserId a);
                   ("title", entity.Title a); ("body", entity.Body a)] db))
                  query.articlesPrefix = redis.keys db query.articlesPrefix).
      { apply HSet_other. intros E. symmetry in E.
        exact (addArticlesPrefix_not_index _ E). }
      unfold redis.SAdd. rewrite Ho1, Hi1.
      destruct (redis.keys db query.articlesPrefix) as [[h0 | s |] |];
        try contradiction; cbn [fst]; rewrite store_same.
      * destruct (existsb (String.eqb (entity.Id a)) s) eqn:Ex; [exact Ex |].
        rewrite existsb_app. cbn. rewrite String.eqb_refl.
        rewrite orb_true_r. reflexivity.
      * cbn. rewrite String.eqb_refl. reflexivity.
Qed.

(** An article is created and then deleted by its id. *)
Lemma Delete_by_id_leaves_the_article :
  let a := Scenario.hello in
  let db' := fst (query.Create a Scenario.empty_redis) in
  snd (query.Delete "1" db') = None /\
  query.Get "1" (fst (query.Delete "1" db')) =
    (if String.eqb "1" (query.addArticlesPrefix "1") then query.no_article else a, None) /\
  query.Get "1" (fst (query.Delete "1" db')) = (a, None) /\
  redis.SIsMember query.articlesPrefix "1" (fst (query.Delete "1" db')) =
    negb (String.eqb "1" query.articlesPrefix).
Proof.
  apply (Delete_removes_the_key_it_is_given Scenario.empty_redis Scenario.hello "1").
  - reflexivity.
  - exact I.
  - exact I.
Defined.

(** X12: [Create] and [Update] of the read model never report a failure.
    They return nil in every state; on a closed client they change
    nothing; on an open client whose key for the article holds something
    that is not a hash they leave that key as it is, and [Get] of the id
    then fails with the wrong-type error of the server. *)
Theorem Create_never_reports_a_failure :
  forall (db : query.DB) (a : entity.Article),
    snd (query.Create a db) = None /\
    snd (query.Update a db) = None /\
    (redis.closed db = true -> fst (query.Create a db) = db) /\
    (redis.closed db = false ->
     ~ query.hash_or_free (query.addArticlesPrefix (entity.Id a)) db ->
     redis.keys (fst (query.Create a db)) (query.addArticlesPrefix (entity.Id a)) =
       redis.keys db (query.addArticlesPrefix (entity.Id a)) /\
     query.Get (entity.Id a) (fst (query.Create a db)) =
       (query.no_article, Some redis.WrongType)).
Proof.
  intros db a. unfold query.Update. rewrite Create_steps. cbn [fst snd].
  split; [reflexivity |]. split; [reflexivity |]. split.
  - intros Hc. unfold redis.HSet. rewrite Hc. cbn [fst].
    unfold redis.SAdd. rewrite Hc. reflexivity.
  - intros Ho Hbad.
    assert (Hkey : redis.keys
              (fst (redis.SAdd query.articlesPrefix (entity.Id a)
                 (fst (redis.HSet (query.addArticlesPrefix (entity.Id a))
                    [("id", entity.Id a); ("user_id", entity.UserId a);
                     ("title", entity.Title a); ("body", entity.Body a)] db))))
              (query.addArticlesPrefix (entity.Id a)) =
            redis.keys db (query.addArticlesPrefix (entity.Id a))).
    { rewrite SAdd_other by apply addArticlesPrefix_not_index.
      unfold redis.HSet. rewrite Ho. unfold query.hash_or_free in Hbad.
      destruct (redis.keys db (query.addArticlesPrefix (entity.Id a)))
        as [[h | s |] |] eqn:E; cbn [fst]; try exact E; exfalso; apply Hbad; exact I. }
    split; [exact Hkey |].
    unfold query.Get, redis.HGetAll.
    rewrite SAdd_closed, HSet_closed, Ho, Hkey.
    unfold query.hash_or_free in Hbad.
    destruct (redis.keys db (query.addArticlesPrefix (entity.Id a)))
      as [[h | s |] |]; try reflexivity; exfalso; apply Hbad; exact I.
Qed.

Section Listing.

Variable strconv_ParseInt : string -> Z + error.
Variable redis_Sort :
  string -> string -> Z -> Z -> bool -> redis.Client -> list string + error.

Lemma scan_all_spec (commands : list redis.MapStringStringCmd) :
  forall articles,
    Forall (fun cmd => redis.cmd_err cmd = None) commands ->
    query.scan_all commands articles =
    inl (articles ++ map (fun cmd => fst (redis.Scan cmd query.no_article)) commands).
Proof.
  induction commands as [| cmd rest IH]; intros articles Hall.
  - cbn. rewrite app_nil_r. reflexivity.
  - inversion Hall as [| ? ? Hc Hrest]; subst.
    cbn [query.scan_all map]. unfold redis.Scan at 1. rewrite Hc.
    rewrite (IH _ Hrest), <- app_assoc. cbn [app].
    unfold redis.Scan at 2. rewrite Hc. reflexivity.
Qed.

Lemma HGetAll_clean (key : string) (db : redis.Client) :
  redis.closed db = false -> query.hash_or_free key db ->
  redis.cmd_err (redis.HGetAll key db) = None.
Proof.
  intros Ho Hk. unfold redis.HGetAll. rewrite Ho. unfold query.hash_or_free in Hk.
  destruct (redis.keys db key) as [[h | s |] |]; try contradiction; reflexivity.
Qed.

Lemma Get_clean (id : string) (db : redis.Client) :
  redis.closed db = false ->
  query.hash_or_free (query.addArticlesPrefix id) db ->
  query.Get id db =
    (fst (redis.Scan (redis.HGetAll (query.addArticlesPrefix id) db) query.no_article),
     None).
Proof.
  intros Ho Hk. unfold query.Get, redis.Scan.
  rewrite (HGetAll_clean _ db Ho Hk). reflexivity.
Qed.

End Listing.

(** X13: [GetMultiple] answers for every id that SORT lists what [Get]
    answers for it, in the order listed.  On an open client, when offset
    and limit parse and the keys of the listed ids hold hashes or nothing,
    the result is the list of those answers and no error; an id whose
    hash is gone stands in it as an empty article. *)
Theorem GetMultiple_answers_as_Get :
  forall (strconv_ParseInt : string -> Z + error)
         (redis_Sort : string -> string -> Z -> Z -> bool -> redis.Client
                       -> list string + error)
         (offset limit : string) (off count : Z) (ids : list string)
         (db : query.DB),
    strconv_ParseInt offset = inl off ->
    strconv_ParseInt limit = inl count ->
    redis_Sort query.articlesPrefix (query.addArticlesPrefix "*->title")
               off count true db = inl ids ->
    redis.closed db = false ->
    Forall (fun id => query.hash_or_free (query.addArticlesPrefix id) db) ids ->
    query.GetMultiple strconv_ParseInt redis_Sort offset limit db =
      inl (map (fun id => fst (query.Get id db)) ids) /\
    Forall (fun id => snd (query.Get id db) = None) ids /\
    forall id, In id ids ->
      redis.keys db (query.addArticlesPrefix id) = None ->
      fst (query.Get id db) = query.no_article.
Proof.
  intros PI Sort offset limit off count ids db Hoff Hcount Hsort Ho Hkeys.
  split; [| split].
  - unfold query.GetMultiple. rewrite Hoff, Hcount, Hsort.
    rewrite scan_all_spec.
    + cbn [app]. rewrite map_map. f_equal.
      apply map_ext_in. intros id Hin.
      rewrite Forall_forall in Hkeys.
      rewrite (Get_clean id db Ho (Hkeys id Hin)). reflexivity.
    + rewrite Forall_map. rewrite Forall_forall in *.
      intros id Hin. apply HGetAll_clean; [exact Ho | apply Hkeys, Hin].
  - rewrite Forall_forall in *. intros id Hin.
    rewrite (Get_clean id db Ho (Hkeys id Hin)). reflexivity.
  - intros id _ Hnone. unfold query.Get, redis.HGetAll.
    rewrite Ho, Hnone. reflexivity.
Qed.

(** Two articles are listed after the hash of the first was deleted. *)
Lemma GetMultiple_lists_an_empty_article :
  query.GetMultiple Scenario.toy_ParseInt Scenario.toy_Sort "0" "10"
                    Scenario.one_hash_gone =
    inl [query.no_article; entity.mkArticle "2" "u2" "Bye" "Last post"].
Proof.
  refine (proj1 (GetMultiple_answers_as_Get
                   Scenario.toy_ParseInt Scenario.toy_Sort "0" "10" 0 10 ["1"; "2"]
                   Scenario.one_hash_gone _ _ _ _ _)).
  - reflexivity.
  - reflexivity.
  - reflexivity.
  - reflexivity.
  - repeat constructor.
Defined.

(** * The write model *)

Section WriteModel.

Variable ArticleEntity : string.
Variable Marshal_Article : entity.Article -> list Byte.byte + error.
Variable Marshal_string : string -> list Byte.byte + error.
Variable Marshal_Event : Event -> list Byte.byte + error.

Lemma AppendToStream_any (sid : string) (ev : esdb.EventData) (c : esdb.Client) :
  esdb.closed c = false ->
  let r := esdb.AppendToStream sid (esdb.mkAppendToStreamOptions None) ev c in
  snd r = None /\ esdb.closed (fst r) = false /\ esdb.grown sid ev c (fst r).
Proof.
  intros Ho. unfold esdb.AppendToStream. rewrite Ho. cbn.
  split; [reflexivity |]. split; [reflexivity |].
  intros s. cbn. destruct (String.eqb_spec s sid); [subst s |]; reflexivity.
Qed.

Lemma AppendToStream_closed (sid : string) (opts : esdb.AppendToStreamOptions)
      (ev : esdb.EventData) (c : esdb.Client) :
  esdb.closed c = true ->
  esdb.AppendToStream sid opts ev c = (c, Some esdb.ErrClosed).
Proof. intros Hc. unfold esdb.AppendToStream. rewrite Hc. reflexivity. Qed.

(** Reading backwards from the end: the last event and its number. *)
Lemma last_numbered (events : list esdb.EventData) :
  forall k, events <> [] ->
    exists e rest,
      rev (map (fun p => esdb.mkResolvedEvent
                           (esdb.mkRecordedEvent (Z.of_nat (fst p)) (snd p)))
               (combine (seq k (List.length events)) events)) = e :: rest /\
      esdb.EventNumber (esdb.OriginalEvent e) =
        Z.of_nat k + Z.of_nat (List.length events) - 1.
Proof.
  induction events as [| x tl IH]; intros k Hne; [contradiction |].
  destruct tl as [| y tl'].
  - cbn. eexists. exists []. split; [reflexivity |]. cbn. lia.
  - destruct (IH (S k)) as (e & rest & Hrev & Hnum); [discriminate |].
    change (combine (seq k (List.length (x :: y :: tl'))) (x :: y :: tl'))
      with ((k, x) :: combine (seq (S k) (List.length (y :: tl'))) (y :: tl')).
    cbn [map rev]. rewrite Hrev. cbn [app].
    exists e. eexists. split; [reflexivity |].
    rewrite Hnum. cbn [List.length]. lia.
Qed.

Lemma lastRevision_found (id : string) (db : esdb.Client) :
  esdb.closed db = false ->
  esdb.streams db (cmd.streamID ArticleEntity id) <> [] ->
  exists e,
    cmd.lastRevision ArticleEntity id db = inl e /\
    esdb.EventNumber (esdb.OriginalEvent e) =
      Z.of_nat (List.length (esdb.streams db (cmd.streamID ArticleEntity id))) - 1.
Proof.
  intros Ho Hne.
  destruct (last_numbered _ 0%nat Hne) as (e & rest & Hrev & Hnum).
  exists e. split; [| rewrite Hnum; lia].
  unfold cmd.lastRevision, esdb.ReadStream. rewrite Ho. cbn [esdb.Direction_ esdb.From].
  unfold esdb.numbered. 
  destruct (esdb.streams db (cmd.streamID ArticleEntity id)) as [| x tl] eqn:E;
    [contradiction |].
  rewrite Hrev. cbn. reflexivity.
Qed.

Lemma lastRevision_missing (id : string) (db : esdb.Client) :
  esdb.closed db = false ->
  esdb.streams db (cmd.streamID ArticleEntity id) = [] ->
  cmd.lastRevision ArticleEntity id db = inr esdb.ErrStreamNotFound.
Proof.
  intros Ho He. unfold cmd.lastRevision, esdb.ReadStream. rewrite Ho, He.
  reflexivity.
Qed.

Lemma Create_appends (now : Z) (a : entity.Article) (db : esdb.Client)
      (j d : list Byte.byte) :
  esdb.closed db = false ->
  Marshal_Article a = inl j ->
  Marshal_Event (mkEvent ArticleEntity Created j now) = inl d ->
  let r := cmd.Create ArticleEntity Marshal_Article Marshal_Event now a db in
  snd r = None /\ esdb.closed (fst r) = false /\
  esdb.grown (cmd.streamID ArticleEntity (entity.Id a))
        (esdb.mkEventData esdb.ContentTypeJson Created d) db (fst r).
Proof.
  intros Ho Hj Hd. unfold cmd.Create. rewrite Hj, Hd. cbn [Type_].
  pose proof (AppendToStream_any (cmd.streamID ArticleEntity (entity.Id a))
                (esdb.mkEventData esdb.ContentTypeJson Created d) db Ho) as Ha.
  cbn zeta in Ha.
  destruct (esdb.AppendToStream _ _ _ db) as [db' err]. cbn [fst snd] in *.
  destruct Ha as (He & Hc & Hg). subst err. repeat split; assumption.
Qed.

Lemma Delete_appends (now : Z) (id : string) (db : esdb.Client)
      (j d : list Byte.byte) :
  esdb.closed db = false ->
  Marshal_string id = inl j ->
  Marshal_Event (mkEvent ArticleEntity Deleted j now) = inl d ->
  let r := cmd.Delete ArticleEntity Marshal_string Marshal_Event now id db in
  snd r = None /\ esdb.closed (fst r) = false /\
  esdb.grown (cmd.streamID ArticleEntity id)
        (esdb.mkEventData esdb.ContentTypeJson Deleted d) db (fst r).
Proof.
  intros Ho Hj Hd. unfold cmd.Delete. rewrite Hj, Hd. cbn [Type_].
  pose proof (AppendToStream_any (cmd.streamID ArticleEntity id)
                (esdb.mkEventData esdb.ContentTypeJson Deleted d) db Ho) as Ha.
  cbn zeta in Ha.
  destruct (esdb.AppendToStream _ _ _ db) as [db' err]. cbn [fst snd] in *.
  destruct Ha as (He & Hc & Hg). subst err. repeat split; assumption.
Qed.

Lemma Update_appends (now : Z) (a : entity.Article) (db : esdb.Client)
      (j d : list Byte.byte) :
  esdb.closed db = false ->
  Marshal_Article a = inl j ->
  Marshal_Event (mkEvent ArticleEntity Updated j now) = inl d ->
  esdb.streams db (cmd.streamID ArticleEntity (entity.Id a)) <> [] ->
  let r := cmd.Update ArticleEntity Marshal_Article Marshal_Event now a db in
  snd r = None /\ esdb.closed (fst r) = false /\
  esdb.grown (cmd.streamID ArticleEntity (entity.Id a))
        (esdb.mkEventData esdb.ContentTypeJson Updated d) db (fst r).
Proof.
  intros Ho Hj Hd Hne. unfold cmd.Update. rewrite Hj, Hd. cbn [Type_].
  destruct (lastRevision_found (entity.Id a) db Ho Hne) as (e & Hl & Hn).
  rewrite Hl. unfold esdb.AppendToStream. rewrite Ho.
  cbn [esdb.ExpectedRevision_ esdb.expected]. rewrite Hn.
  destruct (esdb.streams db (cmd.streamID ArticleEntity (entity.Id a)))
    as [| x tl] eqn:E; [contradiction |].
  rewrite Z.eqb_refl. cbn [fst snd esdb.closed].
  repeat split; try assumption.
  intros s. cbn [fst esdb.streams].
  destruct (String.eqb_spec s (cmd.streamID ArticleEntity (entity.Id a)));
    [subst s; rewrite E |]; reflexivity.
Qed.

Lemma Update_refused (now : Z) (a : entity.Article) (db : esdb.Client)
      (j d : list Byte.byte) :
  esdb.closed db = false ->
  Marshal_Article a = inl j ->
  Marshal_Event (mkEvent ArticleEntity Updated j now) = inl d ->
  esdb.streams db (cmd.streamID ArticleEntity (entity.Id a)) = [] ->
  cmd.Update ArticleEntity Marshal_Article Marshal_Event now a db =
  (db, Some esdb.ErrStreamNotFound).
Proof.
  intros Ho Hj Hd He. unfold cmd.Update. rewrite Hj, Hd.
  rewrite (lastRevision_missing (entity.Id a) db Ho He). reflexivity.
Qed.

(** Whatever a call does, it leaves the store as it was or grows the
    stream of its id by one JSON event. *)
Lemma call_write_grows (op : cmd.write) (db : esdb.Client) :
  let r := cmd.call_write ArticleEntity Marshal_Article Marshal_string
                          Marshal_Event op db in
  esdb.closed (fst r) = esdb.closed db /\
  (fst r = db \/
   exists ev, esdb.ContentType_ ev = esdb.ContentTypeJson /\
              esdb.grown (cmd.streamID ArticleEntity (cmd.target op)) ev db (fst r)).
Proof.
  destruct (esdb.closed db) eqn:Hc.
  - (* a closed client refuses every append and every read *)
    destruct op as [now a | now a | now id]; cbn [cmd.call_write cmd.target].
    + unfold cmd.Create.
      destruct (Marshal_Article a); [| cbn; auto].
      destruct (Marshal_Event _); [| cbn; auto].
      rewrite AppendToStream_closed by exact Hc. cbn; auto.
    + unfold cmd.Update.
      destruct (Marshal_Article a); [| cbn; auto].
      destruct (Marshal_Event _); [| cbn; auto].
      unfold cmd.lastRevision, esdb.ReadStream. rewrite Hc. cbn; auto.
    + unfold cmd.Delete.
      destruct (Marshal_string id); [| cbn; auto].
      destruct (Marshal_Event _); [| cbn; auto].
      rewrite AppendToStream_closed by exact Hc. cbn; auto.
  - destruct op as [now a | now a | now id]; cbn [cmd.call_write cmd.target].
    + destruct (Marshal_Article a) as [j | err] eqn:Hj;
        [| unfold cmd.Create; rewrite Hj; cbn; auto].
      destruct (Marshal_Event (mkEvent ArticleEntity Created j now)) as [d | err] eqn:Hd;
        [| unfold cmd.Create; rewrite Hj, Hd; cbn; auto].
      destruct (Create_appends now a db j d Hc Hj Hd) as (_ & Hc' & Hg).
      split; [exact Hc' |]. right. eexists. split; [| exact Hg]. reflexivity.
    + destruct (Marshal_Article a) as [j | err] eqn:Hj;
        [| unfold cmd.Update; rewrite Hj; cbn; auto].
      destruct (Marshal_Event (mkEvent ArticleEntity Updated j now)) as [d | err] eqn:Hd;
        [| unfold cmd.Update; rewrite Hj, Hd; cbn; auto].
      destruct (esdb.streams db (cmd.streamID ArticleEntity (entity.Id a)))
        as [| x tl] eqn:E.
      * rewrite (Update_refused now a db j d Hc Hj Hd E). cbn; auto.
      * assert (Hne : esdb.streams db (cmd.streamID ArticleEntity (entity.Id a)) <> [])
          by (rewrite E; discriminate).
        destruct (Update_appends now a db j d Hc Hj Hd Hne) as (_ & Hc' & Hg).
        split; [exact Hc' |]. right. eexists. split; [| exact Hg]. reflexivity.
    + destruct (Marshal_string id) as [j | err] eqn:Hj;
        [| unfold cmd.Delete; rewrite Hj; cbn; auto].
      destruct (Marshal_Event (mkEvent ArticleEntity Deleted j now)) as [d | err] eqn:Hd;
        [| unfold cmd.Delete; rewrite Hj, Hd; cbn; auto].
      destruct (Delete_appends now id db j d Hc Hj Hd) as (_ & Hc' & Hg).
      split; [exact Hc' |]. right. eexists. split; [| exact Hg]. reflexivity.
Qed.

Lemma calls_grow (ops : list cmd.write) :
  forall (db : esdb.Client) (sid : string),
    let db' := cmd.calls ArticleEntity Marshal_Article Marshal_string
                         Marshal_Event ops db in
    esdb.closed db' = esdb.closed db /\
    exists suffix,
      esdb.streams db' sid = esdb.streams db sid ++ suffix /\
      (List.length suffix <= List.length (cmd.about ArticleEntity sid ops))%nat /\
      Forall (fun ev => esdb.ContentType_ ev = esdb.ContentTypeJson) suffix.
Proof.
  induction ops as [| op ops IH]; intros db sid.
  - cbn. split; [reflexivity |]. exists []. rewrite app_nil_r.
    split; [reflexivity |]. split; [apply Nat.le_0_l | constructor].
  - change (cmd.calls ArticleEntity Marshal_Article Marshal_string Marshal_Event
              (op :: ops) db)
      with (cmd.calls ArticleEntity Marshal_Article Marshal_string Marshal_Event ops
              (fst (cmd.call_write ArticleEntity Marshal_Article Marshal_string
                      Marshal_Event op db))).
    destruct (call_write_grows op db) as (Hc & Hstep). cbn zeta in Hc, Hstep.
    destruct (IH (fst (cmd.call_write ArticleEntity Marshal_Article Marshal_string
                         Marshal_Event op db)) sid)
      as (Hc' & suffix & Hs & Hlen & Hjson).
    cbn zeta in Hc', Hs.
    split; [etransitivity; [exact Hc' | exact Hc] |].
    unfold cmd.about in *. cbn [filter].
    destruct Hstep as [Hsame | (ev & Hev & Hg)].
    + exists suffix. rewrite Hs, Hsame.
      split; [reflexivity |]. split; [| exact Hjson].
      destruct (String.eqb sid _); cbn [List.length]; lia.
    + rewrite Hs, (Hg sid).
      destruct (String.eqb sid (cmd.streamID ArticleEntity (cmd.target op))).
      * exists (ev :: suffix). rewrite <- app_assoc.
        split; [reflexivity |]. split; [cbn [List.length]; lia |].
        constructor; assumption.
      * exists suffix. split; [reflexivity |]. split; assumption.
Qed.

End WriteModel.

(** X14: [Create] and [Delete] of the write model do not look at the
    stream of the article.  On an open client, when the JSON encodings
    succeed, each returns nil and appends its one event to the stream
    named after the id, whatever that stream holds already: an article
    can be created twice and deleted before it exists; no other stream
    changes. *)
Theorem Create_and_Delete_append_whatever_the_stream_holds :
  forall (ArticleEntity : string)
         (Marshal_Article : entity.Article -> list Byte.byte + error)
         (Marshal_string : string -> list Byte.byte + error)
         (Marshal_Event : Event -> list Byte.byte + error)
         (now : Z) (a : entity.Article) (db : esdb.Client)
         (j d j' d' : list Byte.byte),
    esdb.closed db = false ->
    Marshal_Article a = inl j ->
    Marshal_Event (mkEvent ArticleEntity Created j now) = inl d ->
    Marshal_string (entity.Id a) = inl j' ->
    Marshal_Event (mkEvent ArticleEntity Deleted j' now) = inl d' ->
    let sid := cmd.streamID ArticleEntity (entity.Id a) in
    let created := cmd.Create ArticleEntity Marshal_Article Marshal_Event now a db in
    let deleted := cmd.Delete ArticleEntity Marshal_string Marshal_Event now
                              (entity.Id a) db in
    snd created = None /\
    esdb.streams (fst created) sid =
      esdb.streams db sid ++ [esdb.mkEventData esdb.ContentTypeJson Created d] /\
    snd deleted = None /\
    esdb.streams (fst deleted) sid =
      esdb.streams db sid ++ [esdb.mkEventData esdb.ContentTypeJson Deleted d'] /\
    forall s, s <> sid ->
      esdb.streams (fst created) s = esdb.streams db s /\
      esdb.streams (fst deleted) s = esdb.streams db s.
Proof.
  intros AE MA MS ME now a db j d j' d' Ho Hj Hd Hj' Hd' sid created deleted.
  destruct (Create_appends AE MA ME now a db j d Ho Hj Hd) as (Hc & _ & Hg).
  destruct (Delete_appends AE MS ME now (entity.Id a) db j' d' Ho Hj' Hd')
    as (Hx & _ & Gg).
  fold created in Hc, Hg. fold deleted in Hx, Gg. fold sid in Hg, Gg.
  split; [exact Hc |].
  split; [rewrite (Hg sid), String.eqb_refl; reflexivity |].
  split; [exact Hx |].
  split; [rewrite (Gg sid), String.eqb_refl; reflexivity |].
  intros s Hs. rewrite (Hg s), (Gg s).
  destruct (String.eqb_spec s sid); [contradiction | split; reflexivity].
Qed.

(** The article is created a second time, and deleted. *)
Lemma Create_twice :
  let AE := "article" in
  let db := fst (cmd.Create AE Scenario.toy_Marshal_Article Scenario.toy_Marshal_Event
                            0 Scenario.hello Scenario.empty_esdb) in
  let sid := cmd.streamID AE "1" in
  let created := cmd.Create AE Scenario.toy_Marshal_Article Scenario.toy_Marshal_Event
                            7 Scenario.hello db in
  let deleted := cmd.Delete AE Scenario.toy_Marshal_string Scenario.toy_Marshal_Event
                            7 "1" db in
  snd created = None /\
  esdb.streams (fst created) sid =
    esdb.streams db sid
      ++ [esdb.mkEventData esdb.ContentTypeJson Created (list_byte_of_string "Hello")] /\
  snd deleted = None /\
  esdb.streams (fst deleted) sid =
    esdb.streams db sid
      ++ [esdb.mkEventData esdb.ContentTypeJson Deleted (list_byte_of_string "1")] /\
  forall s, s <> sid ->
    esdb.streams (fst created) s = esdb.streams db s /\
    esdb.streams (fst deleted) s = esdb.streams db s.
Proof.
  intros AE db sid.
  apply (Create_and_Delete_append_whatever_the_stream_holds
           AE Scenario.toy_Marshal_Article Scenario.toy_Marshal_string
           Scenario.toy_Marshal_Event 7 Scenario.hello db
           (list_byte_of_string "Hello") (list_byte_of_string "Hello")
           (list_byte_of_string "1") (list_byte_of_string "1"));
    reflexivity.
Defined.

(** X15: the write model only ever appends.  Whatever sequence of
    [Create], [Update] and [Delete] calls is made, and whatever fails in
    it, every stream keeps the events it had, in place, and gains at most
    one JSON event for each call about it; streams no call is about do
    not change, and the client is left open or closed as it was. *)
Theorem event_streams_only_grow :
  forall (ArticleEntity : string)
         (Marshal_Article : entity.Article -> list Byte.byte + error)
         (Marshal_string : string -> list Byte.byte + error)
         (Marshal_Event : Event -> list Byte.byte + error)
         (ops : list cmd.write) (db : esdb.Client) (sid : string),
    let db' := cmd.calls ArticleEntity Marshal_Article Marshal_string
                         Marshal_Event ops db in
    esdb.closed db' = esdb.closed db /\
    exists suffix,
      esdb.streams db' sid = esdb.streams db sid ++ suffix /\
      (List.length suffix <= List.length (cmd.about ArticleEntity sid ops))%nat /\
      Forall (fun ev => esdb.ContentType_ ev = esdb.ContentTypeJson) suffix.
Proof.
  intros AE MA MS ME ops db sid. apply calls_grow.
Qed.

(** X16: [Update] of the write model succeeds exactly when the stream of
    the article holds an event.  On an open client, when the JSON
    encodings succeed: on an empty stream it fails and appends nothing;
    otherwise it appends its event expecting the revision it has just
    read.  So once anything was written about an id, be it by [Delete],
    every later [Update] of it succeeds whatever calls came between. *)
Theorem Update_needs_an_event_in_the_stream :
  forall (ArticleEntity : string)
         (Marshal_Article : entity.Article -> list Byte.byte + error)
         (Marshal_string : string -> list Byte.byte + error)
         (Marshal_Event : Event -> list Byte.byte + error)
         (now : Z) (a : entity.Article) (ops : list cmd.write)
         (db : esdb.Client) (j d : list Byte.byte),
    esdb.closed db = false ->
    Marshal_Article a = inl j ->
    Marshal_Event (mkEvent ArticleEntity Updated j now) = inl d ->
    let sid := cmd.streamID ArticleEntity (entity.Id a) in
    let db' := cmd.calls ArticleEntity Marshal_Article Marshal_string
                         Marshal_Event ops db in
    let updated := cmd.Update ArticleEntity Marshal_Article Marshal_Event now a db' in
    (snd updated = None <-> esdb.streams db' sid <> []) /\
    (esdb.streams db' sid = [] -> fst updated = db') /\
    (esdb.streams db' sid <> [] ->
     esdb.streams (fst updated) sid =
       esdb.streams db' sid ++ [esdb.mkEventData esdb.ContentTypeJson Updated d]) /\
    (esdb.streams db sid <> [] -> snd updated = None).
Proof.
  intros AE MA MS ME now a ops db j d Ho Hj Hd sid db' updated.
  destruct (calls_grow AE MA MS ME ops db sid) as (Hc & suffix & Hs & _).
  cbn zeta in Hc, Hs. fold db' in Hc, Hs.
  assert (Ho' : esdb.closed db' = false) by congruence.
  assert (Hyes : esdb.streams db' sid <> [] ->
                 snd updated = None /\
                 esdb.streams (fst updated) sid =
                   esdb.streams db' sid
                     ++ [esdb.mkEventData esdb.ContentTypeJson Updated d]).
  { intros Hne.
    destruct (Update_appends AE MA ME now a db' j d Ho' Hj Hd Hne) as (Hu & _ & Hg).
    fold updated in Hu, Hg. split; [exact Hu |].
    rewrite (Hg sid). subst sid. rewrite String.eqb_refl. reflexivity. }
  assert (Hno : esdb.streams db' sid = [] ->
                updated = (db', Some esdb.ErrStreamNotFound)).
  { intros He. exact (Update_refused AE MA ME now a db' j d Ho' Hj Hd He). }
  split; [split |].
  - intros Hu He. rewrite (Hno He) in Hu. discriminate.
  - intros Hne. apply Hyes, Hne.
  - split; [intros He; rewrite (Hno He); reflexivity |].
    split; [intros Hne; apply Hyes, Hne |].
    intros Hne. apply Hyes. rewrite Hs. intros E.
    apply app_eq_nil in E. apply Hne, E.
Qed.

(** An article that was never created is deleted, created by someone
    else meanwhile, and then updated. *)
Lemma Update_after_Delete :
  let AE := "article" in
  let db := fst (cmd.Delete AE Scenario.toy_Marshal_string Scenario.toy_Marshal_Event
                            0 "1" Scenario.empty_esdb) in
  let ops := [cmd.CallCreate 3 (entity.mkArticle "2" "u2" "Bye" "Last post")] in
  let sid := cmd.streamID AE "1" in
  let db' := cmd.calls AE Scenario.toy_Marshal_Article Scenario.toy_Marshal_string
                       Scenario.toy_Marshal_Event ops db in
  let updated := cmd.Update AE Scenario.toy_Marshal_Article Scenario.toy_Marshal_Event
                            7 Scenario.hello db' in
  (snd updated = None <-> esdb.streams db' sid <> []) /\
  (esdb.streams db' sid = [] -> fst updated = db') /\
  (esdb.streams db' sid <> [] ->
   esdb.streams (fst updated) sid =
     esdb.streams db' sid
       ++ [esdb.mkEventData esdb.ContentTypeJson Updated (list_byte_of_string "Hello")]) /\
  (esdb.streams db sid <> [] -> snd updated = None).
Proof.
  intros AE db ops.
  apply (Update_needs_an_event_in_the_stream
           AE Scenario.toy_Marshal_Article Scenario.toy_Marshal_string
           Scenario.toy_Marshal_Event 7 Scenario.hello ops db
           (list_byte_of_string "Hello") (list_byte_of_string "Hello"));
    reflexivity.
Defined.

(** * The handlers *)

Section Handlers.

Variable ArticleEntity : string.
Variable Marshal_Article : entity.Article -> list Byte.byte + error.
Variable Marshal_string : string -> list Byte.byte + error.
Variable Marshal_Event : Event -> list Byte.byte + error.
Variable strconv_ParseInt : string -> Z + error.
Variable redis_Sort :
  string -> string -> Z -> Z -> bool -> redis.Client -> list string + error.
Variable MakeArticleFromPb : option pb.Article -> entity.Article.
Variable Handler : Type.
Variable ResilientPublish : Event -> Handler -> Handler * option error.
Variable Send : nat -> pb.Article -> option error.
Variable ctx_done : nat -> bool.

Lemma send_each_spec (articles : list entity.Article) :
  forall sent : list pb.Article,
    exists k,
      (k <= List.length articles)%nat /\
      fst (server.send_each Send ctx_done articles sent) =
        sent ++ map server.to_pb (firstn k articles) /\
      match snd (server.send_each Send ctx_done articles sent) with
      | None => k = List.length articles \/
                ctx_done (List.length sent + k) = true
      | Some err =>
          exists v, nth_error articles (k - 1) = Some v /\ (0 < k)%nat /\
                    Send (List.length sent + (k - 1)) (server.to_pb v) = Some err
      end.
Proof.
  induction articles as [| v rest IH]; intros sent.
  - exists 0%nat. cbn. rewrite app_nil_r. repeat split; auto.
  - cbn [server.send_each].
    destruct (ctx_done (List.length sent)) eqn:Hd.
    + exists 0%nat. cbn. rewrite app_nil_r, Nat.add_0_r.
      split; [lia |]. split; [reflexivity |]. right. exact Hd.
    + destruct (Send (List.length sent) (server.to_pb v)) as [err |] eqn:Hs.
      * exists 1%nat. cbn [fst snd firstn map List.length].
        split; [lia |]. split; [reflexivity |].
        exists v. cbn. rewrite Nat.add_0_r. repeat split; [lia | exact Hs].
      * destruct (IH (sent ++ [server.to_pb v])) as (k & Hk & Hf & Hr).
        exists (S k). cbn [List.length firstn map].
        split; [lia |]. split; [rewrite Hf, <- app_assoc; reflexivity |].
        rewrite length_app in Hr. cbn [List.length] in Hr.
        destruct (snd (server.send_each Send ctx_done rest (sent ++ [server.to_pb v])))
          as [err |].
        -- destruct Hr as (v' & Hn & Hpos & Hsend).
           exists v'. destruct k as [| k']; [lia |].
           cbn [Nat.sub nth_error] in *. rewrite Nat.sub_0_r in *.
           repeat split; [exact Hn | lia |].
           replace (List.length sent + S k')%nat
             with (List.length sent + 1 + k')%nat by lia.
           exact Hsend.
        -- destruct Hr as [Hr | Hr]; [left; lia |].
           right. replace (List.length sent + S k)%nat
                    with (List.length sent + 1 + k)%nat by lia.
           exact Hr.
Qed.

End Handlers.

(** X17: [GetStream] sends a prefix of what the storage lists, in order
    and unaltered.  An error of the storage is returned and nothing is
    sent.  Otherwise the handler returns nil when all articles were sent
    or when it found the context done, in which case the client gets a
    shorter list and no error; it returns an error only when [Send]
    failed, and that [Send] was the last one. *)
Theorem GetStream_sends_a_prefix :
  forall (strconv_ParseInt : string -> Z + error)
         (redis_Sort : string -> string -> Z -> Z -> bool -> redis.Client
                       -> list string + error)
         (Handler : Type)
         (Send : nat -> pb.Article -> option error) (ctx_done : nat -> bool)
         (offset limit : string) (s : server.ArticleServer Handler),
    let r := server.GetStream strconv_ParseInt redis_Sort Send ctx_done
                              offset limit s in
    match storage.GetMultiple strconv_ParseInt redis_Sort offset limit
                              (server.storage s) with
    | inr err => r = ([], Some err)
    | inl articles =>
        exists k,
          (k <= List.length articles)%nat /\
          fst r = map server.to_pb (firstn k articles) /\
          match snd r with
          | None => k = List.length articles \/ ctx_done k = true
          | Some err =>
              exists v, nth_error articles (k - 1) = Some v /\ (0 < k)%nat /\
                        Send (k - 1)%nat (server.to_pb v) = Some err
          end
    end.
Proof.
  intros PI Sort Handler Send ctx_done offset limit s r.
  subst r. unfold server.GetStream.
  destruct (storage.GetMultiple PI Sort offset limit (server.storage s))
    as [articles | err]; [| reflexivity].
  destruct (send_each_spec Send ctx_done articles []) as (k & Hk & Hf & Hr).
  exists k. cbn [app List.length Nat.add] in *.
  split; [exact Hk |]. split; [exact Hf |]. exact Hr.
Qed.

Section WriteHandlers.

Variable ArticleEntity : string.
Variable Marshal_Article : entity.Article -> list Byte.byte + error.
Variable Marshal_string : string -> list Byte.byte + error.
Variable Marshal_Event : Event -> list Byte.byte + error.
Variable MakeArticleFromPb : option pb.Article -> entity.Article.
Variable Handler : Type.
Variable ResilientPublish : Event -> Handler -> Handler * option error.

(** What the storage accepted had been encoded. *)
Lemma storage_Create_encoded (now : Z) (a : entity.Article) (st : storage.DB) :
  snd (storage.Create ArticleEntity Marshal_Article Marshal_Event now a st) = None ->
  exists json, Marshal_Article a = inl json.
Proof.
  unfold storage.Create, cmd.Create.
  destruct (Marshal_Article a) as [json | err]; [eexists; reflexivity |].
  cbn. discriminate.
Qed.

Lemma storage_Update_encoded (now : Z) (a : entity.Article) (st : storage.DB) :
  snd (storage.Update ArticleEntity Marshal_Article Marshal_Event now a st) = None ->
  exists json, Marshal_Article a = inl json.
Proof.
  unfold storage.Update, cmd.Update.
  destruct (Marshal_Article a) as [json | err]; [eexists; reflexivity |].
  cbn. discriminate.
Qed.

Lemma storage_Delete_encoded (now : Z) (id : string) (st : storage.DB) :
  snd (storage.Delete ArticleEntity Marshal_string Marshal_Event now id st) = None ->
  exists json, Marshal_string id = inl json.
Proof.
  unfold storage.Delete, cmd.Delete.
  destruct (Marshal_string id) as [json | err]; [eexists; reflexivity |].
  cbn. discriminate.
Qed.

(** The writes of the storage go to the event store. *)
Lemma storage_Create_query (now : Z) (a : entity.Article) (st : storage.DB) :
  storage.query_
    (fst (storage.Create ArticleEntity Marshal_Article Marshal_Event now a st)) =
  storage.query_ st.
Proof. unfold storage.Create. destruct (cmd.Create _ _ _ _ _ _). reflexivity. Qed.

Lemma storage_Update_query (now : Z) (a : entity.Article) (st : storage.DB) :
  storage.query_
    (fst (storage.Update ArticleEntity Marshal_Article Marshal_Event now a st)) =
  storage.query_ st.
Proof. unfold storage.Update. destruct (cmd.Update _ _ _ _ _ _). reflexivity. Qed.

Lemma storage_Delete_query (now : Z) (id : string) (st : storage.DB) :
  storage.query_
    (fst (storage.Delete ArticleEntity Marshal_string Marshal_Event now id st)) =
  storage.query_ st.
Proof. unfold storage.Delete. destruct (cmd.Delete _ _ _ _ _ _). reflexivity. Qed.

Lemma Create_answered (stored_at now : Z) (req : option pb.Article)
      (s : server.ArticleServer Handler) :
  server.answered ArticleEntity ResilientPublish Created now (Marshal_Article (MakeArticleFromPb req))
    (storage.Create ArticleEntity Marshal_Article Marshal_Event stored_at
                    (MakeArticleFromPb req) (server.storage s))
    s
    (server.Create ArticleEntity Marshal_Article Marshal_Event MakeArticleFromPb
                   ResilientPublish stored_at now req s).
Proof.
  unfold server.answered, server.Create.
  pose proof (storage_Create_encoded stored_at (MakeArticleFromPb req)
                (server.storage s)) as Henc.
  destruct (storage.Create _ _ _ _ _ _) as [st [err |]]; cbn [fst snd] in *.
  - repeat split.
  - destruct (Henc eq_refl) as (json & Hj). rewrite Hj.
    cbv zeta. cbn [server.eventHandler server.storage].
    match goal with
    | |- context [ResilientPublish ?ev ?h] =>
        destruct (ResilientPublish ev h) as [h' e'] eqn:E
    end.
    cbn [fst snd server.eventHandler server.storage].
    repeat split. exists json. split; [reflexivity |]. rewrite E. reflexivity.
Qed.

Lemma Update_answered (stored_at now : Z) (req : option pb.Article)
      (s : server.ArticleServer Handler) :
  server.answered ArticleEntity ResilientPublish Updated now (Marshal_Article (MakeArticleFromPb req))
    (storage.Update ArticleEntity Marshal_Article Marshal_Event stored_at
                    (MakeArticleFromPb req) (server.storage s))
    s
    (server.Update ArticleEntity Marshal_Article Marshal_Event MakeArticleFromPb
                   ResilientPublish stored_at now req s).
Proof.
  unfold server.answered, server.Update.
  pose proof (storage_Update_encoded stored_at (MakeArticleFromPb req)
                (server.storage s)) as Henc.
  destruct (storage.Update _ _ _ _ _ _) as [st [err |]]; cbn [fst snd] in *.
  - repeat split.
  - destruct (Henc eq_refl) as (json & Hj). rewrite Hj.
    cbv zeta. cbn [server.eventHandler server.storage].
    match goal with
    | |- context [ResilientPublish ?ev ?h] =>
        destruct (ResilientPublish ev h) as [h' e'] eqn:E
    end.
    cbn [fst snd server.eventHandler server.storage].
    repeat split. exists json. split; [reflexivity |]. rewrite E. reflexivity.
Qed.

Lemma Delete_answered (stored_at now : Z) (req : string)
      (s : server.ArticleServer Handler) :
  server.answered ArticleEntity ResilientPublish Deleted now (Marshal_string req)
    (storage.Delete ArticleEntity Marshal_string Marshal_Event stored_at
                    req (server.storage s))
    s
    (server.Delete ArticleEntity Marshal_string Marshal_Event
                   ResilientPublish stored_at now req s).
Proof.
  unfold server.answered, server.Delete.
  pose proof (storage_Delete_encoded stored_at req (server.storage s)) as Henc.
  destruct (storage.Delete _ _ _ _ _ _) as [st [err |]]; cbn [fst snd] in *.
  - repeat split.
  - destruct (Henc eq_refl) as (json & Hj). rewrite Hj.
    cbv zeta. cbn [server.eventHandler server.storage].
    match goal with
    | |- context [ResilientPublish ?ev ?h] =>
        destruct (ResilientPublish ev h) as [h' e'] eqn:E
    end.
    cbn [fst snd server.eventHandler server.storage].
    repeat split. exists json. split; [reflexivity |]. rewrite E. reflexivity.
Qed.

End WriteHandlers.

(** X18: a write handler answers for the event store alone.  [Create],
    [Update] and [Delete] leave the storage as the storage call left it.
    When that call fails they answer an InvalidArgument status made from
    its error and hand nothing to the event handler.  When it succeeds
    they answer success and hand the event handler one event of their
    kind with the encoded article or id: the second encoding cannot fail
    after the first, and what [ResilientPublish] returns is not looked
    at. *)
Theorem write_handlers_answer_for_the_event_store :
  forall (ArticleEntity : string)
         (Marshal_Article : entity.Article -> list Byte.byte + error)
         (Marshal_string : string -> list Byte.byte + error)
         (Marshal_Event : Event -> list Byte.byte + error)
         (MakeArticleFromPb : option pb.Article -> entity.Article)
         (Handler : Type)
         (ResilientPublish : Event -> Handler -> Handler * option error)
         (stored_at now : Z) (req : option pb.Article) (id : string)
         (s : server.ArticleServer Handler),
    server.answered ArticleEntity ResilientPublish Created now
      (Marshal_Article (MakeArticleFromPb req))
      (storage.Create ArticleEntity Marshal_Article Marshal_Event stored_at
                      (MakeArticleFromPb req) (server.storage s))
      s
      (server.Create ArticleEntity Marshal_Article Marshal_Event MakeArticleFromPb
                     ResilientPublish stored_at now req s) /\
    server.answered ArticleEntity ResilientPublish Updated now
      (Marshal_Article (MakeArticleFromPb req))
      (storage.Update ArticleEntity Marshal_Article Marshal_Event stored_at
                      (MakeArticleFromPb req) (server.storage s))
      s
      (server.Update ArticleEntity Marshal_Article Marshal_Event MakeArticleFromPb
                     ResilientPublish stored_at now req s) /\
    server.answered ArticleEntity ResilientPublish Deleted now
      (Marshal_string id)
      (storage.Delete ArticleEntity Marshal_string Marshal_Event stored_at
                      id (server.storage s))
      s
      (server.Delete ArticleEntity Marshal_string Marshal_Event
                     ResilientPublish stored_at now id s).
Proof.
  intros AE MA MS ME MkA Handler RP stored_at now req id s.
  split; [apply Create_answered |].
  split; [apply Update_answered | apply Delete_answered].
Qed.

(** X19: the handlers never fill the read model.  [Get] answers the same
    before and after any of [Create], [Update] and [Delete]; and for an
    id whose key is not in Redis it answers an empty article with a nil
    error.  So [Get] of an article right after its [Create] answers an
    empty article, not the article and not an error. *)
Theorem Get_after_Create_answers_an_empty_article :
  forall (ArticleEntity : string)
         (Marshal_Article : entity.Article -> list Byte.byte + error)
         (Marshal_string : string -> list Byte.byte + error)
         (Marshal_Event : Event -> list Byte.byte + error)
         (MakeArticleFromPb : option pb.Article -> entity.Article)
         (Handler : Type)
         (ResilientPublish : Event -> Handler -> Handler * option error)
         (stored_at now : Z) (req : option pb.Article)
         (s : server.ArticleServer Handler),
    let id := entity.Id (MakeArticleFromPb req) in
    let created := fst (server.Create ArticleEntity Marshal_Article Marshal_Event
                                      MakeArticleFromPb ResilientPublish stored_at now req s) in
    let updated := fst (server.Update ArticleEntity Marshal_Article Marshal_Event
                                      MakeArticleFromPb ResilientPublish stored_at now req s) in
    let deleted := fst (server.Delete ArticleEntity Marshal_string Marshal_Event
                                      ResilientPublish stored_at now id s) in
    redis.closed (storage.query_ (server.storage s)) = false ->
    redis.keys (storage.query_ (server.storage s)) (query.addArticlesPrefix id) = None ->
    server.Get id created =
      (Some (pb.mkGetArticleResponse (Some (pb.mkArticle "" "" "" ""))), None) /\
    forall k, server.Get k created = server.Get k s /\
              server.Get k updated = server.Get k s /\
              server.Get k deleted = server.Get k s.
Proof.
  intros AE MA MS ME MkA Handler RP stored_at now req s id created updated deleted Ho Hk.
  destruct (Create_answered AE MA ME MkA Handler RP stored_at now req s) as (Hc & _).
  destruct (Update_answered AE MA ME MkA Handler RP stored_at now req s) as (Hu & _).
  destruct (Delete_answered AE MS ME Handler RP stored_at now id s) as (Hd & _).
  fold created in Hc. fold updated in Hu. fold deleted in Hd.
  assert (Hframe : forall k, server.Get k created = server.Get k s /\
                             server.Get k updated = server.Get k s /\
                             server.Get k deleted = server.Get k s).
  { intros k. unfold server.Get, storage.Get. rewrite Hc, Hu, Hd.
    rewrite storage_Create_query, storage_Update_query, storage_Delete_query.
    repeat split. }
  split; [| exact Hframe].
  destruct (Hframe id) as (-> & _).
  unfold server.Get, storage.Get, query.Get, redis.HGetAll.
  rewrite Ho, Hk. reflexivity.
Qed.

(** An article is created on a server whose stores are empty. *)
Lemma Get_after_Create_on_a_fresh_server :
  let req := Some (pb.mkArticle "1" "u1" "Hello" "First post") in
  let s := Scenario.fresh_server in
  let created := fst (server.Create "article" Scenario.toy_Marshal_Article
                        Scenario.toy_Marshal_Event entity.ArticleFromPb
                        Scenario.toy_ResilientPublish 3 7 req s) in
  snd (server.Create "article" Scenario.toy_Marshal_Article
         Scenario.toy_Marshal_Event entity.ArticleFromPb
         Scenario.toy_ResilientPublish 3 7 req s) =
    (Some (pb.mkWriteResponse true), None) /\
  server.Get "1" created =
    (Some (pb.mkGetArticleResponse (Some (pb.mkArticle "" "" "" ""))), None).
Proof.
  intros req s created. split; [reflexivity |].
  apply (Get_after_Create_answers_an_empty_article
           "article" Scenario.toy_Marshal_Article Scenario.toy_Marshal_string
           Scenario.toy_Marshal_Event entity.ArticleFromPb (list Event)
           Scenario.toy_ResilientPublish 3 7 req s);
    reflexivity.
Defined.
